(** * DictaBERT to Core ML conversion script: a shallow embedding

    The development embeds [scripts/convert_dictabert_coreml.py]:

    - the binary32 arithmetic of the additive attention mask built in
      [MaskedLMWrapper.forward] (lines 48-49 of the script);
    - the wrapper itself, with the encoder and the head as loaded modules;
    - the vocabulary export of [main] ([sorted] by id, one [write] per token);
    - the file system the script writes to, and [main] as a computation over
      it that records every call to an outside library.

    Conventions.  A Python [str] is the [string] of its bytes in UTF-8, a
    lone surrogate being held as the three bytes a permissive encoder gives
    it; the development looks at the line feed and at these surrogates.  A
    Python [int] is a [Z].  A [dict] is the list of its items in insertion
    order.  A tensor is its shape together with its entries in row-major
    order.  A binary32 value is a [spec_float] with 24 bits of precision and
    exponent bound 128, and Python floats are [spec_float]s with 53 bits and
    bound 1024. *)

From Stdlib Require Import ZArith QArith Lia Floats.SpecFloat Sorting.Sorted.
From Stdlib Require Import Strings.Ascii Strings.String.
From stdpp Require Import gmap strings list fin_maps sorting.

Open Scope Z_scope.

(* ================================================================= *)
(** * Part I: definitions *)
(* ================================================================= *)

(** ** Exceptions and results *)

(** The Python exceptions the modelled code can raise.  [ExternalError]
    stands for whatever a library outside the script raises. *)
Inductive exn : Type :=
| IndexError
| FileExistsError
| FileNotFoundError
| NotADirectoryError
| IsADirectoryError
| UnicodeEncodeError
| ExternalError (what : string).

Definition result (A : Type) : Type := exn + A.

Definition is_ok {A} (r : result A) : bool :=
  match r with inr _ => true | inl _ => false end.

(** ** binary32 arithmetic *)

Definition prec32 : Z := 24.
Definition emax32 : Z := 128.
Definition f32 : Type := spec_float.

(** [tensor.to(torch.float32)] on an integer entry: round to nearest even. *)
Definition f32_of_int (z : Z) : f32 := binary_normalize prec32 emax32 z 0 false.

Definition f32_sub : f32 -> f32 -> f32 := SFsub prec32 emax32.
Definition f32_mul : f32 -> f32 -> f32 := SFmul prec32 emax32.

(** A Python float literal [d e+k] with [0 <= k]: the binary64 nearest to
    the integer [d * 10^k]. *)
Definition f64_of_decimal (digits exp10 : Z) : spec_float :=
  binary_normalize 53 1024 (digits * 10 ^ exp10) 0 false.

(** A Python scalar combined with a float32 tensor is first rounded to
    binary32. *)
Definition f32_of_f64 (x : spec_float) : f32 :=
  match x with
  | S754_finite s m e => binary_round prec32 emax32 s m e
  | _ => x
  end.

(** The literal [1.0] of line 49. *)
Definition one32 : f32 := f32_of_f64 (f64_of_decimal 1 0).

(** The literal [-3.4028e+38] of line 49. *)
Definition neg_big32 : f32 := f32_of_f64 (SFopp (f64_of_decimal 34028 34)).

Definition zero32 : f32 := S754_zero false.

(** The exact rational value of a finite binary32 number. *)
Definition f32_value (x : f32) : option Q :=
  match x with
  | S754_zero _ => Some (inject_Z 0)
  | S754_finite s m e => Some (inject_Z (cond_Zopp s (Z.pos m)) * Qpower (inject_Z 2) e)%Q
  | S754_infinity _ | S754_nan => None
  end.


(** Comparison of a binary32 number with an integer, over the extended
    reals: an infinity is beyond every integer, a NaN compares with none. *)
Definition f32_le_int (x : f32) (z : Z) : Prop :=
  match x with
  | S754_infinity true => True
  | S754_infinity false | S754_nan => False
  | _ => match f32_value x with Some q => Qle q (inject_Z z) | None => False end
  end.


(** ** Tensors *)

Record tensor (A : Type) : Type := Tensor {
  shape : list nat;
  data : list A
}.
Arguments Tensor {A} shape data.
Arguments shape {A} t.
Arguments data {A} t.

Definition numel (s : list nat) : nat := foldr Nat.mul 1%nat s.

Definition tensor_map {A B} (f : A -> B) (t : tensor A) : tensor B :=
  Tensor (shape t) (map f (data t)).

(** [t.unsqueeze(d)]: a dimension of size one is inserted at position [d];
    torch raises [IndexError] when [d] exceeds the rank. *)
Definition unsqueeze {A} (d : nat) (t : tensor A) : result (tensor A) :=
  if (d <=? length (shape t))%nat
  then inr (Tensor (take d (shape t) ++ 1%nat :: drop d (shape t)) (data t))
  else inl IndexError.

Definition to_float32 (t : tensor Z) : tensor f32 := tensor_map f32_of_int t.

(** [c - t] for a Python scalar [c]. *)
Definition rsub_scalar (c : f32) (t : tensor f32) : tensor f32 :=
  tensor_map (fun x => f32_sub c x) t.

(** [t * c] for a Python scalar [c]. *)
Definition mul_scalar (t : tensor f32) (c : f32) : tensor f32 :=
  tensor_map (fun x => f32_mul x c) t.

(** [torch.arange(n)]. *)
Definition arange (n : nat) : tensor Z := Tensor [n] (map Z.of_nat (seq 0 n)).

(** [torch.ones] and [torch.zeros] at shape [s], with [dtype=torch.long]. *)
Definition ones (s : list nat) : tensor Z := Tensor s (replicate (numel s) 1).
Definition zeros (s : list nat) : tensor Z := Tensor s (replicate (numel s) 0).

(** [torch.randint(low, high, s)]: entry [i] is the [i]-th raw draw of the
    generator reduced into [[low, high)]. *)
Definition randint (rand : nat -> Z) (low high : Z) (s : list nat) : tensor Z :=
  Tensor s (map (fun i => low + rand i mod (high - low)) (seq 0 (numel s))).

(** ** The attention mask of [MaskedLMWrapper.forward] *)

(** One entry of the extended mask: [(1.0 - float32(m)) * (-3.4028e+38)]. *)
Definition attention_bias (m : Z) : f32 :=
  f32_mul (f32_sub one32 (f32_of_int m)) neg_big32.

(** Lines 48-49. *)
Definition extended_attention_mask (attention_mask : tensor Z) : result (tensor f32) :=
  match unsqueeze 1 attention_mask with
  | inl e => inl e
  | inr t1 =>
    match unsqueeze 2 t1 with
    | inl e => inl e
    | inr t2 =>
      let extended_mask := to_float32 t2 in
      inr (mul_scalar (rsub_scalar one32 extended_mask) neg_big32)
    end
  end.

(** ** The wrapper *)

Section Wrapper.

(** [Rng] is the state of torch's random generator, [Hidden] the type of
    hidden-state tensors and [Scores] that of prediction scores. *)
Context {Rng Hidden Scores : Type}.

(** A loaded [torch.nn.Module]: its [training] flag and what a call does,
    given the flag, an input and the generator. *)
Record module (X Y : Type) : Type := Module {
  training : bool;
  impl : bool -> X -> Rng -> result Y * Rng
}.
Arguments Module {X Y} training impl.
Arguments training {X Y} m.
Arguments impl {X Y} m.

Definition invoke {X Y} (m : module X Y) (x : X) (g : Rng) : result Y * Rng :=
  impl m (training m) x g.

(** [m.eval()] on a leaf module. *)
Definition module_eval {X Y} (m : module X Y) : module X Y :=
  Module false (impl m).

(** [hf_model.bert]: the embeddings take (input_ids, position_ids,
    token_type_ids); the encoder takes the embedding output and the
    attention mask and returns a tuple whose component 0 is the sequence
    output. *)
Record bert_model : Type := BertModel {
  embeddings : module (tensor Z * tensor Z * tensor Z) Hidden;
  encoder : module (Hidden * tensor f32) (Hidden * list Hidden)
}.

Record hf_model : Type := HFModel {
  bert : bert_model;
  cls : module Hidden Scores
}.

Definition bert_eval (b : bert_model) : bert_model :=
  BertModel (module_eval (embeddings b)) (module_eval (encoder b)).

(** [model.eval()]. *)
Definition hf_eval (m : hf_model) : hf_model :=
  HFModel (bert_eval (bert m)) (module_eval (cls m)).

Record MaskedLMWrapper : Type := Wrapper {
  w_bert : bert_model;
  w_cls : module Hidden Scores;
  position_ids : tensor Z;
  w_training : bool
}.

(** [MaskedLMWrapper.__init__]. *)
Definition wrapper_init (model : hf_model) (max_seq_len : nat) : result MaskedLMWrapper :=
  match unsqueeze 0 (arange max_seq_len) with
  | inl e => inl e
  | inr ids => inr (Wrapper (bert model) (cls model) ids true)
  end.

(** [wrapper.eval()]: the flag is cleared on the wrapper and its children. *)
Definition wrapper_eval (w : MaskedLMWrapper) : MaskedLMWrapper :=
  Wrapper (bert_eval (w_bert w)) (module_eval (w_cls w)) (position_ids w) false.

(** [MaskedLMWrapper.forward]. *)
Definition forward (w : MaskedLMWrapper)
    (input_ids attention_mask token_type_ids : tensor Z) (g : Rng) : result Scores * Rng :=
  match extended_attention_mask attention_mask with
  | inl e => (inl e, g)
  | inr extended_mask =>
    match invoke (embeddings (w_bert w)) (input_ids, position_ids w, token_type_ids) g with
    | (inl e, g1) => (inl e, g1)
    | (inr embedding_output, g1) =>
      match invoke (encoder (w_bert w)) (embedding_output, extended_mask) g1 with
      | (inl e, g2) => (inl e, g2)
      | (inr encoder_output, g2) =>
        let sequence_output := fst encoder_output in
        invoke (w_cls w) sequence_output g2
      end
    end
  end.

End Wrapper.

Arguments module : clear implicits.
Arguments bert_model : clear implicits.
Arguments hf_model : clear implicits.
Arguments MaskedLMWrapper : clear implicits.
Arguments Module {Rng X Y} training impl.
Arguments training {Rng X Y} m.
Arguments impl {Rng X Y} m.

(** ** The vocabulary file *)

Definition LF : ascii := "010"%char.

(** The Python literal of a single line feed. *)
Definition newline : string := String LF EmptyString.

(** A loaded tokenizer; [get_vocab] is the token-to-id dict as the list of
    its items. *)
Record tokenizer : Type := Tokenizer {
  get_vocab : list (string * Z)
}.

(** Python's [sorted(l, key=key)]: the stable sort of [l] by [key].  Each
    element goes in front of the first later element whose key is not
    smaller, so elements with equal keys keep their order. *)
Fixpoint insort {A} (key : A -> Z) (x : A) (l : list A) : list A :=
  match l with
  | [] => [x]
  | y :: l' => if key x <=? key y then x :: y :: l' else y :: insort key x l'
  end.

Definition sorted {A} (key : A -> Z) (l : list A) : list A :=
  foldr (insort key) [] l.

(** What the loop of lines 84-85 writes, in order. *)
Definition vocab_writes (ordered : list (string * Z)) : list string :=
  map (fun kv => fst kv +:+ newline) ordered.

(** The text of [vocab.txt] for a vocabulary. *)
Definition vocab_text (vocab : list (string * Z)) : string :=
  foldr String.append EmptyString (vocab_writes (sorted snd vocab)).

(** The lines of a text: the pieces ended by a line feed, and the text after
    the last line feed when there is some. *)
Fixpoint split_lines (cur s : string) : list string :=
  match s with
  | EmptyString => match cur with EmptyString => [] | _ => [cur] end
  | String c s' =>
    if Ascii.eqb c LF then cur :: split_lines EmptyString s'
    else split_lines (cur +:+ String c EmptyString) s'
  end.

Definition lines (s : string) : list string := split_lines EmptyString s.

Fixpoint count_newlines (s : string) : nat :=
  match s with
  | EmptyString => 0%nat
  | String c s' => ((if Ascii.eqb c LF then 1 else 0) + count_newlines s')%nat
  end.

(** ** The file system *)

(** A path is the list of its components from the root; the root itself is
    the empty list and is always a directory. *)
Abbreviation path := (list string).

Inductive node : Type :=
| File (content : string)
| Dir.

Abbreviation filesystem := (gmap path node).

(** [Path.parent]. *)
Definition parent (p : path) : path := removelast p.

Definition stat (fs : filesystem) (p : path) : option node :=
  match p with
  | [] => Some Dir
  | _ => fs !! p
  end.

(** [Path.exists]. *)
Definition fs_exists (fs : filesystem) (p : path) : bool :=
  match stat fs p with Some _ => true | None => false end.

(** [Path.mkdir(parents=True, exist_ok=True)], walking down from the root:
    missing components are created, directories are kept, and a regular
    file in the way is an error. *)
Fixpoint mkdir_from (base todo : path) (fs : filesystem) : result filesystem :=
  match todo with
  | [] => inr fs
  | c :: rest =>
    let q := base ++ [c] in
    match fs !! q with
    | Some Dir => mkdir_from q rest fs
    | Some (File _) =>
      inl (match rest with [] => FileExistsError | _ => NotADirectoryError end)
    | None => mkdir_from q rest (<[q := Dir]> fs)
    end
  end.

Definition fs_mkdir_parents (p : path) (fs : filesystem) : result filesystem :=
  mkdir_from [] p fs.

(** [open(p, "w")]: the file is created or truncated. *)
Definition fs_open_w (p : path) (fs : filesystem) : result filesystem :=
  match stat fs p with
  | Some Dir => inl IsADirectoryError
  | _ =>
    match stat fs (parent p) with
    | Some Dir => inr (<[p := File EmptyString]> fs)
    | Some (File _) => inl NotADirectoryError
    | None => inl FileNotFoundError
    end
  end.

(** The bytes ED A0..BF open the three-byte form of a code point between
    U+D800 and U+DFFF, a surrogate; no valid UTF-8 text contains them. *)
Definition surrogate_lead (a b : ascii) : bool :=
  Ascii.eqb a "237"%char && (160 <=? N_of_ascii b)%N && (N_of_ascii b <=? 191)%N.

Fixpoint has_surrogate (s : string) : bool :=
  match s with
  | EmptyString => false
  | String a s' =>
    match s' with
    | EmptyString => false
    | String b _ => surrogate_lead a b || has_surrogate s'
    end
  end.

(** What the strict [utf-8] codec of [open(..., encoding="utf-8")] accepts. *)
Definition encodable (s : string) : bool := negb (has_surrogate s).

(** The lone surrogate U+D800, a character of a Python [str] that strict
    UTF-8 refuses. *)
Definition lone_surrogate : string :=
  String "237"%char (String "160"%char (String "128"%char EmptyString)).

(** [f.write(s)] on the file opened at [p]: the text is encoded first, and
    [UnicodeEncodeError] is raised, with nothing of [s] written, when it
    holds a surrogate.  The text reaches the file at once; with the real
    buffer it gets there when the file is closed, which the [with] block
    does on every exit. *)
Definition fs_write (p : path) (s : string) (fs : filesystem) : result filesystem :=
  match fs !! p with
  | Some (File c) =>
    if encodable s then inr (<[p := File (c +:+ s)]> fs) else inl UnicodeEncodeError
  | _ => inl (ExternalError "write to a file that is not open")
  end.

(** [shutil.rmtree(p)]: [p] and everything below it is removed. *)
Definition fs_rmtree (p : path) (fs : filesystem) : result filesystem :=
  match stat fs p with
  | Some Dir => inr (filter (fun kv => ~ p `prefix_of` fst kv) fs)
  | Some (File _) => inl NotADirectoryError
  | None => inl FileNotFoundError
  end.

(** [MLModel.save(p)] of coremltools, for a package whose entries are [pkg]
    (paths relative to the package directory): the directory is created and
    every entry of the package is written below it.  [main] calls [save]
    only on a destination that is absent and whose parent is a directory:
    the export has created the output directory, and an existing package
    has just been removed.  On the other destinations the definition is
    more cautious than the library, which clears an existing directory,
    replaces a regular file and creates a missing parent: here entries that
    are already below [p] are left alone, so that only what [main] does
    before the call makes the destination clean, and a regular file at [p]
    or a missing parent is an error. *)
Definition fs_save (pkg : gmap path node) (p : path) (fs : filesystem) : result filesystem :=
  match stat fs p with
  | Some (File _) => inl FileExistsError
  | _ =>
    match stat fs (parent p) with
    | Some Dir => inr (kmap (fun q => p ++ q) pkg ∪ <[p := Dir]> fs)
    | Some (File _) => inl NotADirectoryError
    | None => inl FileNotFoundError
    end
  end.

(** The sum of [st_size] over the regular files below [p]. *)
Definition tree_size (fs : filesystem) (p : path) : nat :=
  sum_list (map (fun kv => match snd kv with File c => String.length c | Dir => 0%nat end)
                (filter (fun kv => p `prefix_of` fst kv) (map_to_list fs))).

(** ** Calls to coremltools *)

Inductive dtype : Type := int8 | int32 | int64 | float32.

Inductive target : Type := macOS13 | macOS14 | macOS15.

(** [ct.TensorType(name=..., shape=..., dtype=...)]; [None] for an argument
    that is not given. *)
Record TensorType : Type := mkTensorType {
  tt_name : string;
  tt_shape : option (list nat);
  tt_dtype : option dtype
}.

(** The keyword arguments of [ct.convert]. *)
Record convert_args : Type := ConvertArgs {
  inputs : list TensorType;
  outputs : list TensorType;
  convert_to : string;
  minimum_deployment_target : target
}.

(** ** Events and the monad of [main] *)

Inductive message : Type :=
| MsgLoading (name : string)
| MsgWroteVocabulary (tokens : nat) (p : path)
| MsgTracing
| MsgTraced
| MsgConverting
| MsgQuantizing
| MsgSaved (bytes : nat) (p : path)
| MsgDone.

(** What a run does to the outside, in order.  The size shown by [MsgSaved]
    is kept in bytes; the script prints it divided by [1024 * 1024].  The
    console is taken to accept every message: a standard output that cannot
    encode the messages of the script is outside the model. *)
Inductive event : Type :=
| EvPrint (m : message)
| EvLoadTokenizer (name : string)
| EvLoadModel (name attn_implementation : string)
| EvMkdir (p : path)
| EvOpen (p : path)
| EvWrite (p : path) (s : string)
| EvClose (p : path)
| EvTrace (example_inputs : tensor Z * tensor Z * tensor Z)
| EvConvert (args : convert_args)
| EvQuantize (mode : string) (d : dtype)
| EvRmtree (p : path)
| EvSave (p : path) (pkg : gmap path node).

(** A computation reads and changes the file system, emits events and ends
    with a value or with an exception; an exception keeps the file system
    and the events of the steps before it. *)
Definition M (A : Type) : Type := filesystem -> filesystem * list event * result A.

Definition M_ret {A} (a : A) : M A := fun fs => (fs, [], inr a).

Definition M_bind {A B} (k : A -> M B) (m : M A) : M B := fun fs =>
  match m fs with
  | (fs1, ev1, inl e) => (fs1, ev1, inl e)
  | (fs1, ev1, inr a) =>
    match k a fs1 with
    | (fs2, ev2, r) => (fs2, ev1 ++ ev2, r)
    end
  end.

#[global] Instance M_mret : MRet M := @M_ret.
#[global] Instance M_mbind : MBind M := @M_bind.

(** An event without effect on the file system. *)
Definition emit (ev : event) : M unit := fun fs => (fs, [ev], inr tt).

(** A call to an outside library, with its outcome. *)
Definition call {A} (ev : event) (r : result A) : M A := fun fs => (fs, [ev], r).

(** A step that does not touch the outside. *)
Definition lift {A} (r : result A) : M A := fun fs => (fs, [], r).

(** A file-system operation: on an exception the file system is unchanged. *)
Definition fs_op (ev : event) (op : filesystem -> result filesystem) : M unit := fun fs =>
  match op fs with
  | inl e => (fs, [ev], inl e)
  | inr fs' => (fs', [ev], inr tt)
  end.

Definition get_fs : M filesystem := fun fs => (fs, [], inr fs).

(** [try: m finally: fin], as the exit of a [with] block: [fin] runs
    whether or not [m] raised, and the outcome is that of [m] unless [fin]
    raises itself. *)
Definition M_finally {A} (m : M A) (fin : M unit) : M A := fun fs =>
  match m fs with
  | (fs1, ev1, r) =>
    match fin fs1 with
    | (fs2, ev2, inl e) => (fs2, ev1 ++ ev2, inl e)
    | (fs2, ev2, inr _) => (fs2, ev1 ++ ev2, r)
    end
  end.

Fixpoint for_each {A} (l : list A) (body : A -> M unit) : M unit :=
  match l with
  | [] => mret tt
  | x :: l' => body x ;; for_each l' body
  end.

(** ** The script *)

(** The loop of lines 84-85 on the file opened at [p]. *)
Definition write_tokens (p : path) (ordered : list (string * Z)) : M unit :=
  for_each ordered (fun kv =>
    let token := fst kv in
    fs_op (EvWrite p (token +:+ newline)) (fs_write p (token +:+ newline))).

Definition MODEL_NAME : string := "dicta-il/dictabert".
Definition MAX_SEQ_LEN : nat := 128.

Section Script.

Context {Rng Hidden Scores Traced MLModel : Type}.

(** Everything the script takes from outside: where it is stored, the
    Hugging Face loaders, torch's generator and tracer, and coremltools. *)
Record Env : Type := mkEnv {
  script_file : path;
  auto_tokenizer : string -> result tokenizer;
  auto_model : string -> string -> result (hf_model Rng Hidden Scores);
  rand : nat -> Z;
  jit_trace : MaskedLMWrapper Rng Hidden Scores ->
              tensor Z * tensor Z * tensor Z -> result Traced;
  ct_convert : Traced -> convert_args -> result MLModel;
  affine_quantize_weights : MLModel -> string -> dtype -> result MLModel;
  package_files : MLModel -> gmap path node
}.

Variable env : Env.

(** [Path(__file__).resolve().parent.parent / "Resources"]. *)
Definition OUTPUT_DIR : path := parent (parent (script_file env)) ++ ["Resources"].

Definition vocab_path : path := OUTPUT_DIR ++ ["vocab.txt"].

Definition mlpackage_path : path := OUTPUT_DIR ++ ["DictaBERT_INT8.mlpackage"].

(** Lines 77-86: export the vocabulary. *)
Definition export_vocabulary (tok : tokenizer) : M unit :=
  fs_op (EvMkdir OUTPUT_DIR) (fs_mkdir_parents OUTPUT_DIR) ;;
  let vocab := get_vocab tok in
  let ordered := sorted snd vocab in
  fs_op (EvOpen vocab_path) (fs_open_w vocab_path) ;;
  M_finally (write_tokens vocab_path ordered) (emit (EvClose vocab_path)) ;;
  emit (EvPrint (MsgWroteVocabulary (length ordered) vocab_path)).

(** The example inputs of lines 93-95. *)
Definition dummy_ids : tensor Z := randint (rand env) 0 1000 [1%nat; MAX_SEQ_LEN].
Definition dummy_mask : tensor Z := ones [1%nat; MAX_SEQ_LEN].
Definition dummy_type_ids : tensor Z := zeros [1%nat; MAX_SEQ_LEN].

(** Lines 88-99: trace the model. *)
Definition trace_model (model : hf_model Rng Hidden Scores) : M Traced :=
  emit (EvPrint MsgTracing) ;;
  wrapper ← lift (wrapper_init model MAX_SEQ_LEN) ;
  let wrapper := wrapper_eval wrapper in
  traced ← call (EvTrace (dummy_ids, dummy_mask, dummy_type_ids))
                (jit_trace env wrapper (dummy_ids, dummy_mask, dummy_type_ids)) ;
  emit (EvPrint MsgTraced) ;;
  mret traced.

(** The arguments of the call of lines 103-115. *)
Definition main_convert_args : convert_args :=
  ConvertArgs
    [ mkTensorType "input_ids" (Some [1%nat; MAX_SEQ_LEN]) (Some int32);
      mkTensorType "attention_mask" (Some [1%nat; MAX_SEQ_LEN]) (Some int32);
      mkTensorType "token_type_ids" (Some [1%nat; MAX_SEQ_LEN]) (Some int32) ]
    [ mkTensorType "logits" None None ]
    "mlprogram"
    macOS14.

(** Lines 101-115: convert to Core ML. *)
Definition convert_model (traced : Traced) : M MLModel :=
  emit (EvPrint MsgConverting) ;;
  call (EvConvert main_convert_args) (ct_convert env traced main_convert_args).

(** Lines 117-121: INT8 quantization. *)
Definition quantize_model (mlmodel : MLModel) : M MLModel :=
  emit (EvPrint MsgQuantizing) ;;
  call (EvQuantize "linear" int8) (affine_quantize_weights env mlmodel "linear" int8).

(** Lines 123-133: save the package and report its size. *)
Definition save_model (mlmodel_int8 : MLModel) : M unit :=
  fs ← get_fs ;
  (if fs_exists fs mlpackage_path
   then fs_op (EvRmtree mlpackage_path) (fs_rmtree mlpackage_path)
   else mret tt) ;;
  let pkg := package_files env mlmodel_int8 in
  fs_op (EvSave mlpackage_path pkg) (fs_save pkg mlpackage_path) ;;
  fs' ← get_fs ;
  emit (EvPrint (MsgSaved (tree_size fs' mlpackage_path) mlpackage_path)) ;;
  emit (EvPrint MsgDone).

(** [main]. *)
Definition main : M unit :=
  emit (EvPrint (MsgLoading MODEL_NAME)) ;;
  tok ← call (EvLoadTokenizer MODEL_NAME) (auto_tokenizer env MODEL_NAME) ;
  model ← call (EvLoadModel MODEL_NAME "eager") (auto_model env MODEL_NAME "eager") ;
  let model := hf_eval model in
  export_vocabulary tok ;;
  traced ← trace_model model ;
  mlmodel ← convert_model traced ;
  mlmodel_int8 ← quantize_model mlmodel ;
  save_model mlmodel_int8.

End Script.

Arguments Env : clear implicits.

(** ** Reading the events of a run *)

(** The example inputs of the calls to [torch.jit.trace], in order. *)
Definition trace_calls (evs : list event) : list (tensor Z * tensor Z * tensor Z) :=
  omap (fun e => match e with EvTrace i => Some i | _ => None end) evs.

(** The arguments of the calls to [ct.convert], in order. *)
Definition convert_calls (evs : list event) : list convert_args :=
  omap (fun e => match e with EvConvert a => Some a | _ => None end) evs.

(** The events of the model stages: tracing, conversion, quantization. *)
Definition model_stage (e : event) : bool :=
  match e with
  | EvTrace _ | EvConvert _ | EvQuantize _ _ => true
  | _ => false
  end.

(** The events of the package stage. *)
Definition package_stage (e : event) : bool :=
  match e with
  | EvRmtree _ | EvSave _ _ => true
  | _ => false
  end.

(** ** The pieces of a run *)

Section Run.

Context {Rng Hidden Scores Traced MLModel : Type}.
Variable env : Env Rng Hidden Scores Traced MLModel.

(** The wrapper handed to the tracer: built from the model in eval mode and
    put in eval mode itself. *)
Definition traced_wrapper (model : hf_model Rng Hidden Scores) :
    MaskedLMWrapper Rng Hidden Scores :=
  wrapper_eval
    (Wrapper (bert (hf_eval model)) (cls (hf_eval model))
             (Tensor [1%nat; MAX_SEQ_LEN] (data (arange MAX_SEQ_LEN))) true).

Definition example_inputs : tensor Z * tensor Z * tensor Z :=
  (dummy_ids env, dummy_mask, dummy_type_ids).

(** The events up to the vocabulary export. *)
Definition load_events : list event :=
  [EvPrint (MsgLoading MODEL_NAME); EvLoadTokenizer MODEL_NAME;
   EvLoadModel MODEL_NAME "eager"].

(** The events of the model stages when everything up to quantization
    succeeds. *)
Definition stage_events : list event :=
  [EvPrint MsgTracing; EvTrace example_inputs; EvPrint MsgTraced;
   EvPrint MsgConverting; EvConvert main_convert_args;
   EvPrint MsgQuantizing; EvQuantize "linear" int8].

End Run.

(** ** A small instance

    A toy model and toy libraries, on which the script can be run inside
    Rocq.  The generator is a counter, hidden states and scores are lists of
    integers, a traced graph is the number of its inputs, and a Core ML model
    is tagged by whether its weights are quantized. *)

(** A layer with dropout: in training mode it draws from the generator. *)
Definition toy_layer {X Y} (f : X -> Y) (noise : nat -> Y -> Y) : module nat X Y :=
  Module true (fun training x g =>
    if training then (inr (noise g (f x)), S g) else (inr (f x), g)).

Definition toy_model : hf_model nat (list Z) (list Z) :=
  HFModel
    (BertModel
       (toy_layer (fun x => zip_with Z.add (data (fst (fst x))) (data (snd (fst x))))
                  (fun g y => Z.of_nat g :: y))
       (toy_layer (fun x => (map (Z.mul 2) (fst x), [fst x]))
                  (fun g y => (Z.of_nat g :: fst y, snd y))))
    (toy_layer (map Z.succ) (fun g y => Z.of_nat g :: y)).

(** The wrapper built from the toy model for sequences of length 4, as
    [wrapper_init] leaves it (still in training mode). *)
Definition toy_wrapper : MaskedLMWrapper nat (list Z) (list Z) :=
  Wrapper (bert toy_model) (cls toy_model) (Tensor [1; 4]%nat [0; 1; 2; 3]) true.

Definition toy_package (quantized : bool) : gmap path node :=
  {[ ["Manifest.json"] := File "{}";
     ["Data"] := Dir;
     ["Data"; "weights.bin"] := File (if quantized then "int8" else "float32") ]}.

Definition toy_vocab : list (string * Z) :=
  [("[CLS]", 2); ("[PAD]", 0); ("shalom", 3); ("[UNK]", 1)].

Definition toy_env : Env nat (list Z) (list Z) nat bool :=
  mkEnv
    ["repo"; "scripts"; "convert_dictabert_coreml.py"]
    (fun _ => inr (Tokenizer toy_vocab))
    (fun _ _ => inr toy_model)
    (fun i => Z.of_nat i * 7919 + 13)
    (fun _ _ => inr 3%nat)
    (fun _ _ => inr false)
    (fun _ _ _ => inr true)
    toy_package.

(** The same libraries, except that the converter rejects the graph. *)
Definition toy_env_bad_convert : Env nat (list Z) (list Z) nat bool :=
  mkEnv
    (script_file toy_env) (auto_tokenizer toy_env) (auto_model toy_env)
    (rand toy_env) (jit_trace toy_env)
    (fun _ _ => inl (ExternalError "unsupported op"))
    (affine_quantize_weights toy_env) (package_files toy_env).

(** A destination that already holds a package with a stale file. *)
Definition stale_fs : filesystem :=
  {[ ["repo"] := Dir;
     ["repo"; "Resources"] := Dir;
     ["repo"; "Resources"; "DictaBERT_INT8.mlpackage"] := Dir;
     ["repo"; "Resources"; "DictaBERT_INT8.mlpackage"; "old.bin"] := File "stale" ]}.

(** ** Further definitions used by the properties of Part III *)


(** The toy model with another behaviour in training mode (no noise, but the
    generator still advances); in eval mode its layers are those of
    [toy_model]. *)
Definition toy_model_quiet : hf_model nat (list Z) (list Z) :=
  HFModel
    (BertModel
       (toy_layer (fun x => zip_with Z.add (data (fst (fst x))) (data (snd (fst x))))
                  (fun _ y => y))
       (toy_layer (fun x => (map (Z.mul 2) (fst x), [fst x]))
                  (fun _ y => y)))
    (toy_layer (map Z.succ) (fun _ y => y)).

Definition toy_wrapper_quiet : MaskedLMWrapper nat (list Z) (list Z) :=
  Wrapper (bert toy_model_quiet) (cls toy_model_quiet)
          (Tensor [1; 4]%nat [0; 1; 2; 3]) true.

(** The toy libraries with a model that cannot be loaded. *)
Definition toy_env_no_model : Env nat (list Z) (list Z) nat bool :=
  mkEnv
    (script_file toy_env) (auto_tokenizer toy_env)
    (fun _ _ => inl (ExternalError "model not found"))
    (rand toy_env) (jit_trace toy_env) (ct_convert toy_env)
    (affine_quantize_weights toy_env) (package_files toy_env).

(** The messages printed by a run, in order. *)
Definition printed (evs : list event) : list message :=
  omap (fun e => match e with EvPrint m => Some m | _ => None end) evs.

(** No outside library raises: the loaders succeed on the model name, and
    the tracer, the converter and the quantizer succeed on every input. *)
Definition libraries_succeed {Rng Hidden Scores Traced MLModel : Type}
    (env : Env Rng Hidden Scores Traced MLModel) : Prop :=
  is_ok (auto_tokenizer env MODEL_NAME) = true /\
  is_ok (auto_model env MODEL_NAME "eager") = true /\
  (forall w i, is_ok (jit_trace env w i) = true) /\
  (forall t a, is_ok (ct_convert env t a) = true) /\
  (forall m s d, is_ok (affine_quantize_weights env m s d) = true).

(** A destination where a regular file sits at the path of the package. *)
Definition blocked_fs : filesystem :=
  {[ ["repo"] := Dir;
     ["repo"; "Resources"] := Dir;
     ["repo"; "Resources"; "DictaBERT_INT8.mlpackage"] := File "not a package" ]}.

(* ================================================================= *)
(** * Part II: properties *)
(* ================================================================= *)

(** ** Rounding to binary32 *)

(** The number of binary digits of a positive number. *)
Lemma digits2_pos_bounds (p : positive) :
  2 ^ (Z.pos (digits2_pos p) - 1) <= Z.pos p < 2 ^ Z.pos (digits2_pos p).
Proof.
  induction p as [p IH|p IH|]; cbn [digits2_pos].
  - rewrite Pos2Z.inj_succ.
    replace (Z.succ (Z.pos (digits2_pos p)) - 1) with (Z.succ (Z.pos (digits2_pos p) - 1)) by lia.
    rewrite !Z.pow_succ_r by lia. lia.
  - rewrite Pos2Z.inj_succ.
    replace (Z.succ (Z.pos (digits2_pos p)) - 1) with (Z.succ (Z.pos (digits2_pos p) - 1)) by lia.
    rewrite !Z.pow_succ_r by lia. lia.
  - cbn. lia.
Qed.

Lemma digits2_pos_unique (p : positive) (k : Z) :
  2 ^ (k - 1) <= Z.pos p < 2 ^ k -> Z.pos (digits2_pos p) = k.
Proof.
  intros [Hlo Hhi]. pose proof (digits2_pos_bounds p) as [Dlo Dhi].
  set (d := Z.pos (digits2_pos p)) in *.
  assert (0 < k) as Hk.
  { destruct (Z.ltb_spec 0 k) as [|Hn]; [done|].
    destruct (Z.eqb_spec k 0) as [->|]; [cbn in Hhi; lia|].
    rewrite Z.pow_neg_r in Hhi by lia. lia. }
  assert (k - 1 < d) by (apply (Z.pow_lt_mono_r_iff 2); lia).
  assert (d - 1 < k) by (apply (Z.pow_lt_mono_r_iff 2); lia).
  lia.
Qed.

Lemma digits2_pos_lower (p : positive) (k : Z) :
  0 <= k -> 2 ^ k <= Z.pos p -> k + 1 <= Z.pos (digits2_pos p).
Proof.
  intros Hk Hle. pose proof (digits2_pos_bounds p) as [_ Dhi].
  assert (k < Z.pos (digits2_pos p)) by (apply (Z.pow_lt_mono_r_iff 2); lia).
  lia.
Qed.

(** One step of the right shift halves the mantissa. *)
Lemma shr_1_m (mrs : shr_record) :
  0 <= shr_m mrs -> shr_m (shr_1 mrs) = shr_m mrs / 2.
Proof.
  destruct mrs as [m r s]; cbn [shr_m]. intros Hm.
  destruct m as [|[p|p|]|p]; cbn [shr_1 shr_m]; [reflexivity| | |reflexivity|lia].
  - apply Z.div_unique with 1; lia.
  - apply Z.div_unique with 0; lia.
Qed.

Lemma iter_pos_shr_1_m (p : positive) (mrs : shr_record) :
  0 <= shr_m mrs ->
  shr_m (SpecFloat.iter_pos shr_1 p mrs) = shr_m mrs / 2 ^ Z.pos p.
Proof.
  revert mrs. induction p as [p IH|p IH|]; intros mrs Hm; cbn [SpecFloat.iter_pos].
  - assert (0 <= shr_m (shr_1 mrs)) as H1 by (rewrite shr_1_m by done; apply Z.div_pos; lia).
    assert (0 <= shr_m (SpecFloat.iter_pos shr_1 p (shr_1 mrs))) as H2
      by (rewrite IH by done; apply Z.div_pos; lia).
    rewrite IH, IH, shr_1_m by done.
    rewrite !Z.div_div by lia. f_equal.
    rewrite Pos2Z.inj_xI, <- !Z.pow_add_r, <- Z.pow_succ_r by lia. f_equal. lia.
  - assert (0 <= shr_m (SpecFloat.iter_pos shr_1 p mrs)) as H2
      by (rewrite IH by done; apply Z.div_pos; lia).
    rewrite IH, IH by done.
    rewrite !Z.div_div by lia. f_equal.
    rewrite Pos2Z.inj_xO, <- !Z.pow_add_r by lia. f_equal. lia.
  - by rewrite shr_1_m.
Qed.

Lemma shr_m_spec (mrs : shr_record) (e n : Z) :
  0 <= shr_m mrs -> 0 <= n ->
  snd (shr mrs e n) = e + n /\ shr_m (fst (shr mrs e n)) = shr_m mrs / 2 ^ n.
Proof.
  intros Hm Hn. destruct n as [|p|p]; cbn [shr fst snd]; try lia.
  - rewrite Z.div_1_r. lia.
  - split; [done|]. by apply iter_pos_shr_1_m.
Qed.

Lemma round_nearest_even_bounds (m : Z) (l : location) :
  m <= round_nearest_even m l <= m + 1.
Proof.
  destruct l as [|[]]; cbn [round_nearest_even]; try lia.
  destruct (Z.even m); lia.
Qed.

(** Rounding a mantissa of at least 24 digits in the normal range of
    binary32: the result has a 24-digit mantissa, its magnitude is that of
    the input or one more (when rounding carries), and it is an infinity
    exactly when its exponent exceeds 104. *)
Lemma binary_round_aux_shape (s : bool) (mx : positive) (ex : Z) :
  24 <= Z.pos (digits2_pos mx) ->
  -125 <= Z.pos (digits2_pos mx) + ex ->
  exists m e,
    Z.pos (digits2_pos m) = 24 /\
    Z.pos (digits2_pos mx) + ex <= 24 + e <= Z.pos (digits2_pos mx) + ex + 1 /\
    binary_round_aux prec32 emax32 s (Z.pos mx) ex loc_Exact =
      if e <=? 104 then S754_finite s m e else S754_infinity s.
Proof.
  intros Hdg Hd. pose proof (digits2_pos_bounds mx) as [Mlo Mhi].
  set (dg := Z.pos (digits2_pos mx)) in *.
  unfold binary_round_aux, shr_fexp.
  set (n1 := fexp prec32 emax32 (Zdigits2 (Z.pos mx) + ex) - ex).
  assert (n1 = dg - 24) as Hn1.
  { unfold n1, fexp, emin, prec32, emax32. cbn [Zdigits2]. fold dg. lia. }
  destruct (shr_m_spec (shr_record_of_loc (Z.pos mx) loc_Exact) ex n1) as [He1 Hm1];
    [cbn; lia | lia |].
  destruct (shr _ ex n1) as [mrs1 e1]. cbn [fst snd] in He1, Hm1.
  cbn [shr_record_of_loc shr_m] in Hm1.
  set (m2 := round_nearest_even (shr_m mrs1) (loc_of_shr_record mrs1)).
  pose proof (round_nearest_even_bounds (shr_m mrs1) (loc_of_shr_record mrs1)) as Hm2.
  fold m2 in Hm2.
  assert (2 ^ 23 <= shr_m mrs1 < 2 ^ 24) as Hr1.
  { rewrite Hm1, Hn1. split.
    - apply Z.div_le_lower_bound; [lia|].
      rewrite <- Z.pow_add_r by lia. replace (dg - 24 + 23) with (dg - 1) by lia. done.
    - apply Z.div_lt_upper_bound; [lia|].
      rewrite <- Z.pow_add_r by lia. replace (dg - 24 + 24) with dg by lia. done. }
  assert (2 ^ 23 <= m2 <= 2 ^ 24) as Hr2 by lia.
  destruct m2 as [|p2|p2] eqn:Em2; [cbn in Hr2; lia| |cbn in Hr2; lia].
  set (n2 := fexp prec32 emax32 (Zdigits2 (Z.pos p2) + e1) - e1).
  destruct (Z.eq_dec (Z.pos p2) (2 ^ 24)) as [Heq|Hne].
  - assert (Z.pos (digits2_pos p2) = 25) as Hd2
      by (apply digits2_pos_unique; rewrite Heq; cbn; lia).
    assert (n2 = 1) as Hn2.
    { unfold n2, fexp, emin, prec32, emax32. cbn [Zdigits2]. rewrite Hd2. lia. }
    destruct (shr_m_spec (shr_record_of_loc (Z.pos p2) loc_Exact) e1 n2) as [He2 Hm2'];
      [cbn; lia | lia |].
    destruct (shr _ e1 n2) as [mrs2 e2]. cbn [fst snd] in He2, Hm2'.
    cbn [shr_record_of_loc shr_m] in Hm2'. rewrite Hn2, Heq in Hm2'.
    change (2 ^ 24 / 2 ^ 1) with (Z.pos 8388608) in Hm2'. rewrite Hm2'.
    exists 8388608%positive, e2. split; [done|]. split; [lia|].
    unfold emax32, prec32. change (128 - 24) with 104. done.
  - assert (Z.pos (digits2_pos p2) = 24) as Hd2 by (apply digits2_pos_unique; lia).
    assert (n2 = 0) as Hn2.
    { unfold n2, fexp, emin, prec32, emax32. cbn [Zdigits2]. rewrite Hd2. lia. }
    rewrite Hn2. cbn [shr shr_record_of_loc shr_m].
    exists p2, e1. split; [done|]. split; [lia|].
    unfold emax32, prec32. change (128 - 24) with 104. done.
Qed.

Lemma pos_iter_xO (m d : positive) :
  Z.pos (Pos.iter xO m d) = Z.pos m * 2 ^ Z.pos d.
Proof.
  induction d as [|d IH] using Pos.peano_ind.
  - cbn. lia.
  - rewrite Pos.iter_succ, Pos2Z.inj_xO, IH, Pos2Z.inj_succ, Z.pow_succ_r by lia. lia.
Qed.

Lemma shl_align_spec (mx : positive) (ex ex' : Z) :
  ex' <= ex ->
  Z.pos (fst (shl_align mx ex ex')) = Z.pos mx * 2 ^ (ex - ex') /\
  snd (shl_align mx ex ex') = ex'.
Proof.
  intros Hle. unfold shl_align.
  destruct (ex' - ex) as [|d|d] eqn:Ed; cbn [fst snd]; try lia.
  - replace (ex - ex') with 0 by lia. lia.
  - rewrite pos_iter_xO. replace (ex - ex') with (Z.pos d) by lia. lia.
Qed.

Lemma shl_align_id (mx : positive) (ex ex' : Z) :
  ex <= ex' -> shl_align mx ex ex' = (mx, ex).
Proof. intros Hle. unfold shl_align. destruct (ex' - ex) eqn:Ed; [done|done|lia]. Qed.

Lemma binary_round_shape (s : bool) (mx : positive) (ex : Z) :
  -125 <= Z.pos (digits2_pos mx) + ex ->
  exists m e,
    Z.pos (digits2_pos m) = 24 /\
    Z.pos (digits2_pos mx) + ex <= 24 + e <= Z.pos (digits2_pos mx) + ex + 1 /\
    binary_round prec32 emax32 s mx ex =
      if e <=? 104 then S754_finite s m e else S754_infinity s.
Proof.
  intros Hd. pose proof (digits2_pos_bounds mx) as [Mlo Mhi].
  unfold binary_round.
  set (dg := Z.pos (digits2_pos mx)) in *.
  assert (fexp prec32 emax32 (dg + ex) = dg + ex - 24) as ->
    by (unfold fexp, emin, prec32, emax32; lia).
  destruct (Z.le_gt_cases 24 dg) as [Hge|Hlt].
  - rewrite shl_align_id by lia. apply binary_round_aux_shape; fold dg; lia.
  - destruct (shl_align_spec mx ex (dg + ex - 24)) as [Hm He]; [lia|].
    destruct (shl_align mx ex (dg + ex - 24)) as [mz ez]. cbn [fst snd] in Hm, He.
    replace (ex - (dg + ex - 24)) with (24 - dg) in Hm by lia.
    assert (Z.pos (digits2_pos mz) = 24) as Hdz.
    { apply digits2_pos_unique. rewrite Hm. split.
      - replace (2 ^ (24 - 1)) with (2 ^ (dg - 1) * 2 ^ (24 - dg))
          by (rewrite <- Z.pow_add_r by lia; f_equal; lia).
        apply Z.mul_le_mono_nonneg_r; lia.
      - replace (2 ^ 24) with (2 ^ dg * 2 ^ (24 - dg))
          by (rewrite <- Z.pow_add_r by lia; f_equal; lia).
        apply Z.mul_lt_mono_pos_r; lia. }
    destruct (binary_round_aux_shape s mz ez) as (m & e & Hdm & Hrange & Heq); [lia|lia|].
    exists m, e. split; [done|]. split; [lia|done].
Qed.

(** ** The entries of the extended mask *)

Lemma one32_eq : one32 = S754_finite false 8388608 (-23).
Proof. vm_compute. reflexivity. Qed.

Lemma neg_big32_eq : neg_big32 = S754_finite true 16777099 104.
Proof. vm_compute. reflexivity. Qed.

(** [1.0 - x] for a normal [x] of magnitude at least 4 (or at least 1 when
    [x] is negative): a number of magnitude at least 2, of the other sign. *)
Lemma sub_one_shape (sx : bool) (m1 : positive) (e1 : Z) :
  Z.pos (digits2_pos m1) = 24 ->
  (if sx then -23 else -21) <= e1 ->
  exists m2 e2,
    Z.pos (digits2_pos m2) = 24 /\ -22 <= e2 /\
    f32_sub one32 (S754_finite sx m1 e1) =
      if e2 <=? 104 then S754_finite (negb sx) m2 e2 else S754_infinity (negb sx).
Proof.
  intros Hd1 He1. rewrite one32_eq. unfold f32_sub. cbn [SFsub].
  pose proof (digits2_pos_bounds m1) as [Mlo Mhi]. rewrite Hd1 in Mlo, Mhi.
  assert (Z.min (-23) e1 = -23) as -> by (destruct sx; lia).
  rewrite (shl_align_id 8388608 (-23) (-23)) by lia. cbn [fst].
  destruct (shl_align_spec m1 e1 (-23)) as [Hm _]; [destruct sx; lia|].
  rewrite Hm. replace (e1 - -23) with (e1 + 23) by lia.
  assert (2 ^ 23 * 2 ^ (e1 + 23) <= Z.pos m1 * 2 ^ (e1 + 23)) as Hprod
    by (apply Z.mul_le_mono_nonneg_r; lia).
  rewrite <- Z.pow_add_r in Hprod by (destruct sx; lia).
  destruct sx; cbn [cond_Zopp negb].
  - assert (2 ^ 23 <= 2 ^ (23 + (e1 + 23))) by (apply Z.pow_le_mono_r; lia).
    destruct (Z.pos 8388608 - - (Z.pos m1 * 2 ^ (e1 + 23))) as [|q|q] eqn:Eq; [lia| |lia].
    cbn [binary_normalize].
    assert (25 <= Z.pos (digits2_pos q)) by (apply (digits2_pos_lower q 24); lia).
    destruct (binary_round_shape false q (-23)) as (m2 & e2 & Hd2 & Hr & Heq); [lia|].
    exists m2, e2. split; [done|]. split; [lia|done].
  - assert (2 ^ 25 <= 2 ^ (23 + (e1 + 23))) by (apply Z.pow_le_mono_r; lia).
    destruct (Z.pos 8388608 - Z.pos m1 * 2 ^ (e1 + 23)) as [|q|q] eqn:Eq; [lia|lia|].
    cbn [binary_normalize].
    assert (25 <= Z.pos (digits2_pos q)) by (apply (digits2_pos_lower q 24); lia).
    destruct (binary_round_shape true q (-23)) as (m2 & e2 & Hd2 & Hr & Heq); [lia|].
    exists m2, e2. split; [done|]. split; [lia|done].
Qed.

(** A number of magnitude at least 2 times [-3.4028e+38] overflows. *)
Lemma mul_neg_big_overflow (s : bool) (m2 : positive) (e2 : Z) :
  Z.pos (digits2_pos m2) = 24 -> -22 <= e2 ->
  f32_mul (S754_finite s m2 e2) neg_big32 = S754_infinity (negb s).
Proof.
  intros Hd2 He2. rewrite neg_big32_eq. unfold f32_mul. cbn [SFmul].
  pose proof (digits2_pos_bounds m2) as [Mlo Mhi]. rewrite Hd2 in Mlo, Mhi.
  assert (47 <= Z.pos (digits2_pos (m2 * 16777099))).
  { apply (digits2_pos_lower _ 46); [lia|]. rewrite Pos2Z.inj_mul.
    change (2 ^ 46) with (2 ^ 23 * 2 ^ 23). apply Z.mul_le_mono_nonneg; lia. }
  destruct (binary_round_aux_shape (xorb s true) (m2 * 16777099) (e2 + 104))
    as (m3 & e3 & Hd3 & Hr & Heq); [lia|lia|].
  fold prec32 emax32. rewrite Heq.
  destruct (Z.leb_spec e3 104); [lia|]. by destruct s.
Qed.

(** The value of [(1.0 - float32(m)) * (-3.4028e+38)] for every integer. *)
Lemma attention_bias_cases (m : Z) :
  attention_bias m =
    if m <=? -1 then S754_infinity true
    else if m =? 0 then S754_finite true 16777099 104
    else if m =? 1 then S754_zero true
    else if m =? 2 then S754_finite false 16777099 104
    else S754_infinity false.
Proof.
  destruct (Z.leb_spec m (-1)) as [Hneg|Hnn].
  - destruct m as [|p|p]; [lia|lia|].
    unfold attention_bias, f32_of_int. cbn [binary_normalize].
    pose proof (digits2_pos_bounds p).
    destruct (binary_round_shape true p 0) as (m1 & e1 & Hd1 & Hr1 & ->); [lia|].
    destruct (Z.leb_spec e1 104); [|by vm_compute].
    destruct (sub_one_shape true m1 e1) as (m2 & e2 & Hd2 & Hr2 & ->); [done|cbn; lia|].
    cbn [negb]. destruct (Z.leb_spec e2 104); [|by vm_compute].
    by rewrite mul_neg_big_overflow.
  - destruct (Z.eqb_spec m 0) as [->|]; [by vm_compute|].
    destruct (Z.eqb_spec m 1) as [->|]; [by vm_compute|].
    destruct (Z.eqb_spec m 2) as [->|]; [by vm_compute|].
    destruct (Z.eq_dec m 3) as [->|]; [by vm_compute|].
    destruct m as [|p|p]; [lia| |lia].
    unfold attention_bias, f32_of_int. cbn [binary_normalize].
    assert (3 <= Z.pos (digits2_pos p)) by (apply (digits2_pos_lower p 2); lia).
    destruct (binary_round_shape false p 0) as (m1 & e1 & Hd1 & Hr1 & ->); [lia|].
    destruct (Z.leb_spec e1 104); [|by vm_compute].
    destruct (sub_one_shape false m1 e1) as (m2 & e2 & Hd2 & Hr2 & ->); [done|cbn; lia|].
    cbn [negb]. destruct (Z.leb_spec e2 104); [|by vm_compute].
    by rewrite mul_neg_big_overflow.
Qed.

(** ** The extended mask as a tensor *)

Lemma extended_attention_mask_eq (L : nat) (attention_mask : tensor Z) :
  shape attention_mask = [1%nat; L] ->
  extended_attention_mask attention_mask =
    inr (Tensor [1; 1; 1; L]%nat (map attention_bias (data attention_mask))).
Proof.
  intros Hs. unfold extended_attention_mask, unsqueeze. rewrite Hs. cbn.
  unfold mul_scalar, rsub_scalar, to_float32, tensor_map. cbn.
  do 2 f_equal. rewrite !map_map. done.
Qed.

Lemma neg_big32_le : f32_le_int (S754_finite true 16777099 104) (- 10 ^ 38).
Proof. cbn [f32_le_int f32_value]. apply Qle_bool_imp_le. vm_compute. reflexivity. Qed.


(** C2.  For an attention mask of shape [[1, L]] whose entries are 0 or 1,
    lines 48-49 of [forward] yield a tensor of shape [[1, 1, 1, L]]; its
    entry at a position is [(1.0 - float32(m)) * (-3.4028e+38)] for the mask
    entry [m] there, which is a zero of binary32 (equal to 0.0) where the
    mask is 1 and at most -1e38 where the mask is 0. *)
Theorem extended_mask_of_binary_mask (L : nat) (attention_mask : tensor Z) :
  shape attention_mask = [1%nat; L] ->
  length (data attention_mask) = L ->
  Forall (fun m => m = 0 \/ m = 1) (data attention_mask) ->
  exists extended_mask,
    extended_attention_mask attention_mask = inr extended_mask /\
    shape extended_mask = [1; 1; 1; L]%nat /\
    length (data extended_mask) = L /\
    forall (j : nat) (m : Z), data attention_mask !! j = Some m ->
      exists v, data extended_mask !! j = Some v /\
        v = f32_mul (f32_sub one32 (f32_of_int m)) neg_big32 /\
        (m = 1 -> SFeqb v zero32 = true /\ f32_value v = Some (inject_Z 0)) /\
        (m = 0 -> f32_le_int v (- 10 ^ 38)).
Proof.
  intros Hs Hlen Hbin. eexists. split; [by apply extended_attention_mask_eq|].
  cbn [shape data]. split; [done|]. split; [by rewrite length_map|].
  intros j m Hj. exists (attention_bias m). split.
  { by rewrite list_lookup_fmap, Hj. }
  split; [done|]. split.
  - intros ->. rewrite attention_bias_cases. cbn. done.
  - intros ->. rewrite attention_bias_cases. cbn [Z.leb Z.eqb Z.compare].
    apply neg_big32_le.
Qed.

Lemma extended_mask_of_binary_mask_witness :
  exists extended_mask,
    extended_attention_mask (Tensor [1; 4]%nat [1; 1; 0; 0]) = inr extended_mask /\
    shape extended_mask = [1; 1; 1; 4]%nat /\
    length (data extended_mask) = 4%nat /\
    forall (j : nat) (m : Z), [1; 1; 0; 0] !! j = Some m ->
      exists v, data extended_mask !! j = Some v /\
        v = f32_mul (f32_sub one32 (f32_of_int m)) neg_big32 /\
        (m = 1 -> SFeqb v zero32 = true /\ f32_value v = Some (inject_Z 0)) /\
        (m = 0 -> f32_le_int v (- 10 ^ 38)).
Proof.
  apply (extended_mask_of_binary_mask 4 (Tensor [1; 4]%nat [1; 1; 0; 0])).
  - reflexivity.
  - reflexivity.
  - repeat constructor; lia.
Defined.



(** ** Sorting by id *)

Lemma insort_Permutation {A} (key : A -> Z) (x : A) (l : list A) :
  insort key x l ≡ₚ x :: l.
Proof.
  induction l as [|y l IH]; cbn; [done|].
  destruct (key x <=? key y); [done|].
  rewrite IH. apply Permutation_swap.
Qed.

Lemma sorted_Permutation {A} (key : A -> Z) (l : list A) : sorted key l ≡ₚ l.
Proof.
  induction l as [|x l IH]; cbn; [done|].
  by rewrite insort_Permutation, IH.
Qed.

Lemma length_sorted {A} (key : A -> Z) (l : list A) : length (sorted key l) = length l.
Proof. by rewrite sorted_Permutation. Qed.

Lemma insort_StronglySorted {A} (key : A -> Z) (x : A) (l : list A) :
  StronglySorted (fun a b => key a <= key b) l ->
  StronglySorted (fun a b => key a <= key b) (insort key x l).
Proof.
  induction 1 as [|y l Hl IH Hy]; cbn.
  - repeat constructor.
  - destruct (Z.leb_spec (key x) (key y)) as [Hle|Hgt].
    + constructor; [by constructor|].
      constructor; [done|]. eapply Forall_impl; [exact Hy|]. cbn. intros; lia.
    + constructor; [done|]. rewrite insort_Permutation.
      constructor; [lia|done].
Qed.

Lemma sorted_StronglySorted {A} (key : A -> Z) (l : list A) :
  StronglySorted (fun a b => key a <= key b) (sorted key l).
Proof.
  induction l as [|x l IH]; cbn; [constructor|]. by apply insort_StronglySorted.
Qed.

(** The stable sort keeps the order of the elements with equal keys. *)
Lemma insort_filter {A} (key : A -> Z) (k : Z) (x : A) (l : list A) :
  StronglySorted (fun a b => key a <= key b) l ->
  filter (fun a => key a = k) (insort key x l) = filter (fun a => key a = k) (x :: l).
Proof.
  induction 1 as [|y l Hl IH Hy]; cbn; [done|].
  destruct (Z.leb_spec (key x) (key y)) as [Hle|Hgt]; [done|].
  rewrite !filter_cons, IH, !filter_cons.
  destruct (decide (key y = k)), (decide (key x = k)); try done. lia.
Qed.

Lemma sorted_stable {A} (key : A -> Z) (k : Z) (l : list A) :
  filter (fun a => key a = k) (sorted key l) = filter (fun a => key a = k) l.
Proof.
  induction l as [|x l IH]; [done|].
  change (sorted key (x :: l)) with (insort key x (sorted key l)).
  rewrite insort_filter by apply sorted_StronglySorted.
  by rewrite !filter_cons, IH.
Qed.

(** ** Lines of a text *)

Lemma append_nil_l (t : string) : EmptyString +:+ t = t.
Proof. reflexivity. Qed.

Lemma append_cons (c : ascii) (s t : string) : String c s +:+ t = String c (s +:+ t).
Proof. reflexivity. Qed.

Lemma append_nil_r (s : string) : s +:+ EmptyString = s.
Proof. induction s as [|c s IH]; [done|]. by rewrite append_cons, IH. Qed.

Lemma append_assoc (s t u : string) : (s +:+ t) +:+ u = s +:+ (t +:+ u).
Proof. induction s as [|c s IH]; [done|]. by rewrite !append_cons, IH. Qed.

(** A piece without line feed, followed by a line feed, is one line. *)
Lemma split_lines_line (cur t rest : string) :
  count_newlines t = 0%nat ->
  split_lines cur (t +:+ newline +:+ rest) = (cur +:+ t) :: split_lines EmptyString rest.
Proof.
  revert cur. induction t as [|c t IH]; intros cur Hnl.
  - rewrite append_nil_l, append_nil_r. reflexivity.
  - rewrite append_cons. cbn [split_lines]. cbn [count_newlines] in Hnl.
    destruct (Ascii.eqb c LF); [done|].
    rewrite IH by done. by rewrite append_assoc, append_cons, append_nil_l.
Qed.


Lemma vocab_writes_cons (kv : string * Z) (l : list (string * Z)) :
  foldr String.append EmptyString (vocab_writes (kv :: l)) =
    fst kv +:+ newline +:+ foldr String.append EmptyString (vocab_writes l).
Proof. cbn [vocab_writes map foldr]. by rewrite append_assoc. Qed.

(** Without line feeds inside the tokens, the lines are the tokens. *)
Lemma lines_vocab_writes (ordered : list (string * Z)) :
  Forall (fun kv => count_newlines (fst kv) = 0%nat) ordered ->
  lines (foldr String.append EmptyString (vocab_writes ordered)) = map fst ordered.
Proof.
  unfold lines. induction 1 as [|kv l Hkv Hl IH]; [done|].
  rewrite vocab_writes_cons, split_lines_line by done. cbn [map].
  by rewrite IH, append_nil_l.
Qed.



(** ** The contiguous case: the sorted ids are 0, 1, ..., N-1 *)

Lemma StronglySorted_seqZ (m n : Z) : StronglySorted Z.le (seqZ m n).
Proof.
  destruct (Z.le_gt_cases n 0) as [Hn|Hn]; [rewrite seqZ_nil by done; constructor|].
  rewrite <- (Z2Nat.id n) by lia. generalize (Z.to_nat n) as k. clear. intros k. revert m.
  induction k as [|k IH]; intros m; [rewrite seqZ_nil by done; constructor|].
  rewrite seqZ_cons by lia. replace (Z.pred (Z.of_nat (S k))) with (Z.of_nat k) by lia.
  constructor; [apply IH|]. apply Forall_seqZ. lia.
Qed.

Lemma sorted_ids_contiguous (vocab : list (string * Z)) :
  (forall i : Z, 0 <= i < Z.of_nat (length vocab) -> exists t, (t, i) ∈ vocab) ->
  map snd (sorted snd vocab) = seqZ 0 (Z.of_nat (length vocab)).
Proof.
  intros Hcover.
  assert (seqZ 0 (Z.of_nat (length vocab)) ≡ₚ map snd vocab) as Hperm.
  { apply submseteq_length_Permutation.
    - apply NoDup_submseteq; [apply NoDup_seqZ|].
      intros i Hi. apply elem_of_seqZ in Hi. destruct (Hcover i) as [t Ht]; [lia|].
      apply list_elem_of_fmap. by exists (t, i).
    - rewrite length_seqZ, length_map. lia. }
  apply (StronglySorted_unique Z.le).
  - assert (StronglySorted (fun a b : string * Z => snd a <= snd b) (sorted snd vocab)) as Hs
      by apply sorted_StronglySorted.
    induction Hs as [|kv l Hl IH Hkv]; cbn; constructor; [done|].
    by apply Forall_fmap.
  - apply StronglySorted_seqZ.
  - by rewrite Hperm, (sorted_Permutation snd vocab).
Qed.

Lemma sorted_lookup_contiguous (vocab : list (string * Z)) (i : nat) (t : string) :
  (forall i : Z, 0 <= i < Z.of_nat (length vocab) -> exists t, (t, i) ∈ vocab) ->
  (t, Z.of_nat i) ∈ vocab ->
  map fst (sorted snd vocab) !! i = Some t.
Proof.
  intros Hcover Hin. pose proof (sorted_ids_contiguous vocab Hcover) as Hids.
  rewrite <- (sorted_Permutation snd vocab) in Hin.
  apply list_elem_of_lookup in Hin as [j Hj].
  assert (map snd (sorted snd vocab) !! j = Some (Z.of_nat i)) as Hj2
    by (by rewrite list_lookup_fmap, Hj).
  rewrite Hids in Hj2. apply lookup_seqZ in Hj2 as [Heq _].
  assert (j = i) as -> by lia. by rewrite list_lookup_fmap, Hj.
Qed.

(** ** The file system *)

Lemma stat_snoc (fs : filesystem) (l : path) (x : string) :
  stat fs (l ++ [x]) = fs !! (l ++ [x]).
Proof. by destruct l. Qed.

Lemma parent_snoc (l : path) (x : string) : parent (l ++ [x]) = l.
Proof. apply removelast_last. Qed.

Lemma mkdir_from_target (base todo : path) (fs fs1 : filesystem) :
  mkdir_from base todo fs = inr fs1 -> todo <> [] ->
  fs1 !! (base ++ todo) = Some Dir.
Proof.
  revert base fs. induction todo as [|c rest IH]; intros base fs Hrun Hne; [done|].
  cbn [mkdir_from] in Hrun.
  destruct rest as [|c' rest].
  - destruct (fs !! (base ++ [c])) as [[?|]|] eqn:Eq; cbn in Hrun; simplify_eq; [done|].
    apply lookup_insert_eq.
  - replace (base ++ c :: c' :: rest) with ((base ++ [c]) ++ c' :: rest)
      by (by rewrite <- app_assoc).
    destruct (fs !! (base ++ [c])) as [[?|]|] eqn:Eq; [done| |]; by eapply IH.
Qed.

Lemma mkdir_from_other (base todo : path) (fs fs1 : filesystem) (p : path) :
  mkdir_from base todo fs = inr fs1 ->
  ~ p `prefix_of` base ++ todo ->
  fs1 !! p = fs !! p.
Proof.
  revert base fs. induction todo as [|c rest IH]; intros base fs Hrun Hp.
  { cbn in Hrun. by simplify_eq. }
  cbn [mkdir_from] in Hrun.
  assert (base ++ c :: rest = (base ++ [c]) ++ rest) as Happ by (by rewrite <- app_assoc).
  rewrite Happ in Hp.
  destruct (fs !! (base ++ [c])) as [[?|]|] eqn:Eq; [done| |].
  - by eapply IH.
  - erewrite IH by done. apply lookup_insert_ne.
    intros <-. apply Hp. by apply prefix_app_r.
Qed.

Lemma mkdir_from_keeps (base todo : path) (fs fs1 : filesystem) (p : path) (n : node) :
  mkdir_from base todo fs = inr fs1 ->
  fs !! p = Some n -> fs1 !! p = Some n.
Proof.
  revert base fs. induction todo as [|c rest IH]; intros base fs Hrun Hp.
  { cbn in Hrun. by simplify_eq. }
  cbn [mkdir_from] in Hrun.
  destruct (fs !! (base ++ [c])) as [[?|]|] eqn:Eq; [done| |].
  - by eapply IH.
  - eapply IH; [done|]. rewrite lookup_insert_ne; [done|]. congruence.
Qed.

(** ** Running the vocabulary export *)

Section ScriptFacts.

Context {Rng Hidden Scores Traced MLModel : Type}.
Variable env : Env Rng Hidden Scores Traced MLModel.

Lemma vocab_path_not_prefix : ~ vocab_path env `prefix_of` OUTPUT_DIR env.
Proof.
  intros H%prefix_length. unfold vocab_path in H. rewrite length_app in H. cbn in H. lia.
Qed.

Lemma mkdir_output_dir (fs fs0 : filesystem) :
  fs_mkdir_parents (OUTPUT_DIR env) fs = inr fs0 ->
  stat fs0 (OUTPUT_DIR env) = Some Dir /\
  fs0 !! vocab_path env = fs !! vocab_path env.
Proof.
  intros Hrun. split.
  - unfold OUTPUT_DIR. rewrite stat_snoc.
    apply (mkdir_from_target [] _ fs); [done|]. by destruct (parent _).
  - eapply (mkdir_from_other []); [done|]. apply vocab_path_not_prefix.
Qed.

(** Appending a line feed does not change whether a text can be encoded. *)
Lemma encodable_newline (t : string) : encodable (t +:+ newline) = encodable t.
Proof.
  unfold encodable. f_equal.
  induction t as [|a t IH]; [done|].
  rewrite append_cons. destruct t as [|b t]; [|by rewrite append_cons in *; cbn in *; rewrite IH].
  rewrite append_nil_l. unfold newline. cbn [has_surrogate]. unfold surrogate_lead.
  change (160 <=? N_of_ascii LF)%N with false.
  by rewrite andb_false_r.
Qed.

(** The loop of lines 84-85 on an open file: it appends the writes, and
    stops with [UnicodeEncodeError] at the first token that cannot be
    encoded. *)
Lemma write_tokens_run (p : path) (l : list (string * Z)) (fs : filesystem) (c : string) :
  fs !! p = Some (File c) ->
  exists c' evw r,
    write_tokens p l fs = (<[p := File c']> fs, evw, r) /\
    Forall (fun e => model_stage e = false /\ package_stage e = false /\ printed [e] = []) evw /\
    (r = inr tt \/ r = inl UnicodeEncodeError) /\
    (r = inr tt ->
       Forall (fun kv => encodable (fst kv) = true) l /\
       c' = c +:+ foldr String.append EmptyString (vocab_writes l) /\
       evw = map (EvWrite p) (vocab_writes l)) /\
    (Forall (fun kv => encodable (fst kv) = true) l -> r = inr tt).
Proof.
  revert fs c. induction l as [|kv l IH]; intros fs c Hp.
  - exists c, [], (inr tt). cbn. rewrite insert_id by done.
    repeat split; try done; [by left|by rewrite append_nil_r].
  - unfold write_tokens. cbn [for_each]. fold (write_tokens p l).
    unfold mbind, M_mbind, M_bind, fs_op at 1, fs_write at 1.
    rewrite Hp, encodable_newline.
    destruct (encodable (fst kv)) eqn:Eenc.
    + destruct (IH (<[p := File (c +:+ fst kv +:+ newline)]> fs) (c +:+ fst kv +:+ newline))
        as (c' & evw & r & Hrun & Hev & Hr & Hok & Hall); [apply lookup_insert_eq|].
      rewrite Hrun, insert_insert_eq.
      exists c', (EvWrite p (fst kv +:+ newline) :: evw), r.
      split; [done|]. split; [by constructor|]. split; [done|]. split.
      * intros Hres. destruct (Hok Hres) as (Hl & -> & ->).
        split; [by constructor|]. cbn [vocab_writes map foldr].
        by rewrite !append_assoc.
      * intros Hl. apply Hall. by inv Hl.
    + exists c, [EvWrite p (fst kv +:+ newline)], (inl UnicodeEncodeError).
      rewrite insert_id by done.
      split; [done|]. split; [by repeat constructor|]. split; [by right|].
      split; [done|]. intros Hl. inv Hl. congruence.
Qed.

(** The loop stops at the first token that cannot be encoded: what was
    written before it stays in the file. *)
Lemma write_tokens_stop (p : path) (before : list (string * Z)) (kv : string * Z)
    (after : list (string * Z)) (fs : filesystem) (c : string) :
  fs !! p = Some (File c) ->
  Forall (fun kv => encodable (fst kv) = true) before ->
  encodable (fst kv) = false ->
  write_tokens p (before ++ kv :: after) fs =
    (<[p := File (c +:+ foldr String.append EmptyString (vocab_writes before))]> fs,
     map (EvWrite p) (vocab_writes before) ++ [EvWrite p (fst kv +:+ newline)],
     inl UnicodeEncodeError).
Proof.
  intros Hp Hbefore Hkv. revert fs c Hp.
  induction Hbefore as [|kv' l Hkv' _ IH]; intros fs c Hp.
  - unfold write_tokens. cbn [app for_each].
    unfold mbind, M_mbind, M_bind, fs_op at 1, fs_write at 1.
    rewrite Hp, encodable_newline, Hkv. cbn. by rewrite append_nil_r, insert_id.
  - unfold write_tokens. cbn [app for_each]. fold (write_tokens p (l ++ kv :: after)).
    unfold mbind, M_mbind, M_bind, fs_op at 1, fs_write at 1.
    rewrite Hp, encodable_newline, Hkv'.
    rewrite (IH _ (c +:+ fst kv' +:+ newline)) by apply lookup_insert_eq.
    rewrite insert_insert_eq. cbn [vocab_writes map foldr app].
    by rewrite !append_assoc.
Qed.

Lemma fs_open_w_result (p : path) (fs fs1 : filesystem) :
  fs_open_w p fs = inr fs1 -> fs1 = <[p := File EmptyString]> fs.
Proof.
  unfold fs_open_w. intros H.
  destruct (stat fs p) as [[?|]|], (stat fs (parent p)) as [[?|]|]; by simplify_eq.
Qed.

(** The export, step by step. *)
Lemma export_vocabulary_run (tok : tokenizer) (fs : filesystem) :
  export_vocabulary env tok fs =
    match fs_mkdir_parents (OUTPUT_DIR env) fs with
    | inl e => (fs, [EvMkdir (OUTPUT_DIR env)], inl e)
    | inr fs0 =>
      match fs_open_w (vocab_path env) fs0 with
      | inl e => (fs0, [EvMkdir (OUTPUT_DIR env); EvOpen (vocab_path env)], inl e)
      | inr fs1 =>
        match write_tokens (vocab_path env) (sorted snd (get_vocab tok)) fs1 with
        | (fs2, evw, inl e) =>
          (fs2, EvMkdir (OUTPUT_DIR env) :: EvOpen (vocab_path env) ::
                evw ++ [EvClose (vocab_path env)], inl e)
        | (fs2, evw, inr _) =>
          (fs2, EvMkdir (OUTPUT_DIR env) :: EvOpen (vocab_path env) ::
                evw ++ [EvClose (vocab_path env);
                        EvPrint (MsgWroteVocabulary (length (sorted snd (get_vocab tok)))
                                                    (vocab_path env))], inr tt)
        end
      end
    end.
Proof.
  unfold export_vocabulary, mbind, M_mbind, M_bind, fs_op at 1.
  destruct (fs_mkdir_parents (OUTPUT_DIR env) fs) as [e|fs0]; [done|].
  unfold fs_op at 1.
  destruct (fs_open_w (vocab_path env) fs0) as [e|fs1]; [done|].
  unfold M_finally, emit.
  destruct (write_tokens _ _ fs1) as [[fs2 evw] [e|[]]]; cbn [app]; [done|].
  by rewrite <- app_assoc.
Qed.

(** The four ways the export can go: the directory cannot be made, the file
    cannot be opened, a token cannot be encoded (the file then holds what
    was written before it), or everything is written. *)
Lemma export_vocabulary_cases (tok : tokenizer) (fs : filesystem) :
  (exists e, fs_mkdir_parents (OUTPUT_DIR env) fs = inl e /\
     export_vocabulary env tok fs = (fs, [EvMkdir (OUTPUT_DIR env)], inl e)) \/
  (exists fs0 e, fs_mkdir_parents (OUTPUT_DIR env) fs = inr fs0 /\
     fs_open_w (vocab_path env) fs0 = inl e /\
     export_vocabulary env tok fs =
       (fs0, [EvMkdir (OUTPUT_DIR env); EvOpen (vocab_path env)], inl e)) \/
  (exists fs0 c' evw, fs_mkdir_parents (OUTPUT_DIR env) fs = inr fs0 /\
     is_ok (fs_open_w (vocab_path env) fs0) = true /\
     Forall (fun e => model_stage e = false /\ package_stage e = false /\ printed [e] = []) evw /\
     ~ Forall (fun kv => encodable (fst kv) = true) (get_vocab tok) /\
     export_vocabulary env tok fs =
       (<[vocab_path env := File c']> fs0,
        EvMkdir (OUTPUT_DIR env) :: EvOpen (vocab_path env) :: evw ++ [EvClose (vocab_path env)],
        inl UnicodeEncodeError)) \/
  (exists fs0, fs_mkdir_parents (OUTPUT_DIR env) fs = inr fs0 /\
     is_ok (fs_open_w (vocab_path env) fs0) = true /\
     Forall (fun kv => encodable (fst kv) = true) (get_vocab tok) /\
     export_vocabulary env tok fs =
       (<[vocab_path env := File (vocab_text (get_vocab tok))]> fs0,
        EvMkdir (OUTPUT_DIR env) :: EvOpen (vocab_path env) ::
          map (EvWrite (vocab_path env)) (vocab_writes (sorted snd (get_vocab tok))) ++
          [EvClose (vocab_path env);
           EvPrint (MsgWroteVocabulary (length (get_vocab tok)) (vocab_path env))],
        inr tt)).
Proof.
  rewrite export_vocabulary_run.
  destruct (fs_mkdir_parents (OUTPUT_DIR env) fs) as [e|fs0]; [left; by exists e|].
  right. destruct (fs_open_w (vocab_path env) fs0) as [e|fs1] eqn:Eopen;
    [left; by exists fs0, e|].
  right. pose proof (fs_open_w_result _ _ _ Eopen) as ->.
  assert (is_ok (fs_open_w (vocab_path env) fs0) = true) as Hopen by (by rewrite Eopen).
  destruct (write_tokens_run (vocab_path env) (sorted snd (get_vocab tok))
              (<[vocab_path env := File EmptyString]> fs0) EmptyString)
    as (c' & evw & r & Hrun & Hev & Hr & Hok & Hall); [apply lookup_insert_eq|].
  rewrite Hrun, insert_insert_eq.
  destruct Hr as [-> | ->].
  - right. destruct (Hok eq_refl) as (Hl & -> & ->).
    exists fs0. split; [done|]. split; [done|].
    split; [by rewrite <- (sorted_Permutation snd (get_vocab tok))|].
    by rewrite append_nil_l, length_sorted.
  - left. exists fs0, c', evw. split; [done|]. split; [done|]. split; [done|].
    split; [|done]. intros Hl.
    rewrite <- (sorted_Permutation snd (get_vocab tok)) in Hl.
    by specialize (Hall Hl).
Qed.

Lemma fs_open_w_vocab (fs fs0 : filesystem) :
  fs_mkdir_parents (OUTPUT_DIR env) fs = inr fs0 ->
  fs !! vocab_path env <> Some Dir ->
  is_ok (fs_open_w (vocab_path env) fs0) = true.
Proof.
  intros Hmk Hnd. destruct (mkdir_output_dir _ _ Hmk) as [Hdir Hsame].
  assert (stat fs0 (parent (vocab_path env)) = Some Dir) as Hpar
    by (unfold vocab_path; by rewrite parent_snoc).
  assert (stat fs0 (vocab_path env) = fs !! vocab_path env) as Hst
    by (rewrite <- Hsame; apply stat_snoc).
  unfold fs_open_w. rewrite Hpar, Hst.
  by destruct (fs !! vocab_path env) as [[?|]|].
Qed.

(** When the destination can be created, [vocab.txt] is not a directory and
    every token can be encoded, the export succeeds and leaves the text of
    the vocabulary in the file. *)
Lemma export_vocabulary_ok (tok : tokenizer) (fs : filesystem) :
  Forall (fun kv => encodable (fst kv) = true) (get_vocab tok) ->
  is_ok (fs_mkdir_parents (OUTPUT_DIR env) fs) = true ->
  fs !! vocab_path env <> Some Dir ->
  exists fs' evs,
    export_vocabulary env tok fs = (fs', evs, inr tt) /\
    fs' !! vocab_path env = Some (File (vocab_text (get_vocab tok))).
Proof.
  intros Henc Hmk Hnd.
  destruct (export_vocabulary_cases tok fs)
    as [(e & Emk & _)|[(fs0 & e & Emk & Eopen & _)|
        [(fs0 & c' & evw & _ & _ & _ & Hbad & _)|(fs0 & Emk & _ & _ & Hrun)]]].
  - by rewrite Emk in Hmk.
  - pose proof (fs_open_w_vocab fs fs0 Emk Hnd) as Hopen. by rewrite Eopen in Hopen.
  - done.
  - do 2 eexists. split; [exact Hrun|]. apply lookup_insert_eq.
Qed.

End ScriptFacts.

(** ** The vocabulary file *)

(** C1, as the script has it.  For a vocabulary of [N] entries whose ids
    are exactly the numbers below [N], whose tokens contain no line feed and
    can all be encoded as UTF-8, the export on a destination that can be
    created, with [vocab.txt] not a directory, succeeds and writes a file of
    exactly [N] lines whose line [i] is the token of id [i]. *)
Theorem export_vocabulary_contiguous {Rng Hidden Scores Traced MLModel : Type}
    (env : Env Rng Hidden Scores Traced MLModel)
    (tok : tokenizer) (fs : filesystem) (N : nat) :
  length (get_vocab tok) = N ->
  (forall i : Z, (exists t, (t, i) ∈ get_vocab tok) <-> 0 <= i < Z.of_nat N) ->
  Forall (fun kv => count_newlines (fst kv) = 0%nat) (get_vocab tok) ->
  Forall (fun kv => encodable (fst kv) = true) (get_vocab tok) ->
  is_ok (fs_mkdir_parents (OUTPUT_DIR env) fs) = true ->
  fs !! vocab_path env <> Some Dir ->
  exists fs' evs content,
    export_vocabulary env tok fs = (fs', evs, inr tt) /\
    fs' !! vocab_path env = Some (File content) /\
    length (lines content) = N /\
    forall (i : nat) (t : string),
      (t, Z.of_nat i) ∈ get_vocab tok -> lines content !! i = Some t.
Proof.
  intros HN Hcover Hnl Henc Hmk Hnd.
  destruct (export_vocabulary_ok env tok fs Henc Hmk Hnd) as (fs' & evs & Hrun & Hfile).
  exists fs', evs, (vocab_text (get_vocab tok)). split; [done|]. split; [done|].
  assert (lines (vocab_text (get_vocab tok)) = map fst (sorted snd (get_vocab tok))) as ->.
  { apply lines_vocab_writes. by rewrite (sorted_Permutation snd (get_vocab tok)). }
  split; [by rewrite length_map, length_sorted|].
  intros i t Hin. apply sorted_lookup_contiguous; [|done].
  intros j Hj. apply Hcover. lia.
Qed.

Lemma export_vocabulary_contiguous_witness :
  exists fs' evs content,
    export_vocabulary toy_env (Tokenizer toy_vocab) ∅ = (fs', evs, inr tt) /\
    fs' !! vocab_path toy_env = Some (File content) /\
    length (lines content) = 4%nat /\
    forall (i : nat) (t : string),
      (t, Z.of_nat i) ∈ toy_vocab -> lines content !! i = Some t.
Proof.
  apply (export_vocabulary_contiguous toy_env (Tokenizer toy_vocab) ∅ 4).
  - reflexivity.
  - intros i. cbn [get_vocab]. unfold toy_vocab. split.
    + intros [t Ht]. repeat (apply elem_of_cons in Ht as [Ht|Ht]; [simplify_eq; lia|]).
      by apply elem_of_nil in Ht.
    + intros Hi.
      assert (i = 0 \/ i = 1 \/ i = 2 \/ i = 3) as [-> | [-> | [-> | ->]]] by lia;
        eexists; repeat first [apply list_elem_of_here | apply list_elem_of_further].
  - repeat constructor.
  - repeat constructor.
  - vm_compute. reflexivity.
  - vm_compute. discriminate.
Defined.

(** Two vocabularies of one entry with id 0, on an empty file system.  A
    token with a line feed inside gives a file of two lines, the first of
    which is not the token.  A token that is a lone surrogate stops the
    export with [UnicodeEncodeError], and the file stays empty. *)
Lemma export_vocabulary_contiguous_counterexample :
  (length (get_vocab (Tokenizer [("a" +:+ newline +:+ "b", 0)])) = 1%nat /\
   (forall i : Z,
      (exists t, (t, i) ∈ get_vocab (Tokenizer [("a" +:+ newline +:+ "b", 0)])) <->
      0 <= i < 1) /\
   is_ok (fs_mkdir_parents (OUTPUT_DIR toy_env) ∅) = true /\
   (∅ : filesystem) !! vocab_path toy_env <> Some Dir /\
   (export_vocabulary toy_env (Tokenizer [("a" +:+ newline +:+ "b", 0)]) ∅).2 = inr tt /\
   (export_vocabulary toy_env (Tokenizer [("a" +:+ newline +:+ "b", 0)]) ∅).1.1
     !! vocab_path toy_env = Some (File ("a" +:+ newline +:+ "b" +:+ newline)) /\
   length (lines ("a" +:+ newline +:+ "b" +:+ newline)) = 2%nat /\
   lines ("a" +:+ newline +:+ "b" +:+ newline) !! 0%nat = Some "a") /\
  (count_newlines lone_surrogate = 0%nat /\
   (forall i : Z,
      (exists t, (t, i) ∈ get_vocab (Tokenizer [(lone_surrogate, 0)])) <-> 0 <= i < 1) /\
   (export_vocabulary toy_env (Tokenizer [(lone_surrogate, 0)]) ∅).2 =
     inl UnicodeEncodeError /\
   (export_vocabulary toy_env (Tokenizer [(lone_surrogate, 0)]) ∅).1.1
     !! vocab_path toy_env = Some (File EmptyString)).
Proof.
  assert (forall t : string, forall i : Z,
            (exists t', (t', i) ∈ get_vocab (Tokenizer [(t, 0)])) <-> 0 <= i < 1) as Hcover.
  { intros t i. cbn [get_vocab]. split.
    - intros [t' Ht]. apply list_elem_of_singleton in Ht. simplify_eq. lia.
    - intros Hi. assert (i = 0) as -> by lia. eexists. apply list_elem_of_here. }
  split.
  - split; [reflexivity|]. split; [apply Hcover|].
    split; [vm_compute; reflexivity|]. split; [vm_compute; discriminate|].
    split; [vm_compute; reflexivity|]. split; [vm_compute; reflexivity|].
    split; vm_compute; reflexivity.
  - split; [reflexivity|]. split; [apply Hcover|].
    split; vm_compute; reflexivity.
Qed.

(** C8, as the script has it.  For every mapping whose tokens contain no
    line feed and can all be encoded as UTF-8, whatever its ids (duplicates,
    gaps, negative numbers), the export succeeds on a destination that can
    be created, with [vocab.txt] not a directory, and writes one line per
    entry: the lines are the tokens of the entries put in non-decreasing
    order of id, entries of equal id in the order of the mapping.  Nothing
    about the ids is checked. *)
Theorem export_vocabulary_any_ids {Rng Hidden Scores Traced MLModel : Type}
    (env : Env Rng Hidden Scores Traced MLModel)
    (tok : tokenizer) (fs : filesystem) :
  Forall (fun kv => count_newlines (fst kv) = 0%nat) (get_vocab tok) ->
  Forall (fun kv => encodable (fst kv) = true) (get_vocab tok) ->
  is_ok (fs_mkdir_parents (OUTPUT_DIR env) fs) = true ->
  fs !! vocab_path env <> Some Dir ->
  exists fs' evs content ordered,
    export_vocabulary env tok fs = (fs', evs, inr tt) /\
    fs' !! vocab_path env = Some (File content) /\
    length (lines content) = length (get_vocab tok) /\
    ordered ≡ₚ get_vocab tok /\
    StronglySorted (fun a b => snd a <= snd b) ordered /\
    (forall k : Z, filter (fun a => snd a = k) ordered =
                   filter (fun a => snd a = k) (get_vocab tok)) /\
    lines content = map fst ordered.
Proof.
  intros Hnl Henc Hmk Hnd.
  destruct (export_vocabulary_ok env tok fs Henc Hmk Hnd) as (fs' & evs & Hrun & Hfile).
  exists fs', evs, (vocab_text (get_vocab tok)), (sorted snd (get_vocab tok)).
  split; [done|]. split; [done|].
  assert (lines (vocab_text (get_vocab tok)) = map fst (sorted snd (get_vocab tok))) as ->.
  { apply lines_vocab_writes. by rewrite (sorted_Permutation snd (get_vocab tok)). }
  split; [by rewrite length_map, length_sorted|].
  split; [apply sorted_Permutation|].
  split; [apply sorted_StronglySorted|].
  split; [intros k; apply sorted_stable|done].
Qed.

Lemma export_vocabulary_any_ids_witness :
  exists fs' evs content ordered,
    export_vocabulary toy_env (Tokenizer [("b", 7); ("a", 7); ("c", -2)]) ∅ =
      (fs', evs, inr tt) /\
    fs' !! vocab_path toy_env = Some (File content) /\
    length (lines content) = 3%nat /\
    ordered ≡ₚ [("b", 7); ("a", 7); ("c", -2)] /\
    StronglySorted (fun a b => snd a <= snd b) ordered /\
    (forall k : Z, filter (fun a => snd a = k) ordered =
                   filter (fun a => snd a = k) [("b", 7); ("a", 7); ("c", -2)]) /\
    lines content = map fst ordered.
Proof.
  apply (export_vocabulary_any_ids toy_env (Tokenizer [("b", 7); ("a", 7); ("c", -2)]) ∅).
  - repeat constructor.
  - repeat constructor.
  - vm_compute. reflexivity.
  - vm_compute. discriminate.
Defined.

(** Two mappings with a repeated id, on an empty file system.  With a token
    that ends in a line feed the export succeeds and the file has three
    lines for two entries.  With a token that is a lone surrogate the export
    fails with [UnicodeEncodeError] after the first line. *)
Lemma export_vocabulary_any_ids_counterexample :
  (is_ok (fs_mkdir_parents (OUTPUT_DIR toy_env) ∅) = true /\
   (∅ : filesystem) !! vocab_path toy_env <> Some Dir /\
   (export_vocabulary toy_env (Tokenizer [("x", 5); ("y" +:+ newline, 5)]) ∅).2 = inr tt /\
   (export_vocabulary toy_env (Tokenizer [("x", 5); ("y" +:+ newline, 5)]) ∅).1.1
     !! vocab_path toy_env = Some (File ("x" +:+ newline +:+ "y" +:+ newline +:+ newline)) /\
   length (get_vocab (Tokenizer [("x", 5); ("y" +:+ newline, 5)])) = 2%nat /\
   length (lines ("x" +:+ newline +:+ "y" +:+ newline +:+ newline)) = 3%nat) /\
  (count_newlines lone_surrogate = 0%nat /\
   (export_vocabulary toy_env (Tokenizer [("x", 5); (lone_surrogate, 5)]) ∅).2 =
     inl UnicodeEncodeError /\
   (export_vocabulary toy_env (Tokenizer [("x", 5); (lone_surrogate, 5)]) ∅).1.1
     !! vocab_path toy_env = Some (File ("x" +:+ newline))).
Proof.
  split.
  - split; [vm_compute; reflexivity|]. split; [vm_compute; discriminate|].
    split; [vm_compute; reflexivity|]. split; [vm_compute; reflexivity|].
    split; vm_compute; reflexivity.
  - split; [reflexivity|]. split; vm_compute; reflexivity.
Qed.




(** ** Running [main] *)

Section MainFacts.

Context {Rng Hidden Scores Traced MLModel : Type}.
Variable env : Env Rng Hidden Scores Traced MLModel.

Lemma wrapper_init_eq (model : hf_model Rng Hidden Scores) (L : nat) :
  wrapper_init model L =
    inr (Wrapper (bert model) (cls model) (Tensor [1%nat; L] (data (arange L))) true).
Proof. reflexivity. Qed.

Lemma trace_model_run (model : hf_model Rng Hidden Scores) (fs : filesystem) :
  trace_model env (hf_eval model) fs =
    match jit_trace env (traced_wrapper model) (example_inputs env) with
    | inl e => (fs, [EvPrint MsgTracing; EvTrace (example_inputs env)], inl e)
    | inr traced =>
      (fs, [EvPrint MsgTracing; EvTrace (example_inputs env); EvPrint MsgTraced], inr traced)
    end.
Proof.
  unfold trace_model, mbind, M_mbind, M_bind, emit, lift, call, mret, M_mret, M_ret.
  rewrite wrapper_init_eq. fold (traced_wrapper model). fold (example_inputs env).
  by destruct (jit_trace env (traced_wrapper model) (example_inputs env)).
Qed.

Lemma save_model_run (mlmodel_int8 : MLModel) (fs : filesystem) :
  save_model env mlmodel_int8 fs =
    let p := mlpackage_path env in
    let pkg := package_files env mlmodel_int8 in
    if fs_exists fs p then
      match fs_rmtree p fs with
      | inl e => (fs, [EvRmtree p], inl e)
      | inr fs1 =>
        match fs_save pkg p fs1 with
        | inl e => (fs1, [EvRmtree p; EvSave p pkg], inl e)
        | inr fs2 =>
          (fs2, [EvRmtree p; EvSave p pkg;
                 EvPrint (MsgSaved (tree_size fs2 p) p); EvPrint MsgDone], inr tt)
        end
      end
    else
      match fs_save pkg p fs with
      | inl e => (fs, [EvSave p pkg], inl e)
      | inr fs2 =>
        (fs2, [EvSave p pkg; EvPrint (MsgSaved (tree_size fs2 p) p); EvPrint MsgDone],
         inr tt)
      end.
Proof.
  unfold save_model, mbind, M_mbind, M_bind, get_fs, emit, mret, M_mret, M_ret.
  cbn zeta. destruct (fs_exists fs (mlpackage_path env)).
  - unfold fs_op. destruct (fs_rmtree _ fs) as [e|fs1]; [done|].
    by destruct (fs_save _ _ fs1).
  - unfold fs_op. by destruct (fs_save _ _ fs).
Qed.

(** [main], step by step. *)
Lemma main_run (fs : filesystem) :
  main env fs =
    match auto_tokenizer env MODEL_NAME with
    | inl e => (fs, take 2 load_events, inl e)
    | inr tok =>
    match auto_model env MODEL_NAME "eager" with
    | inl e => (fs, load_events, inl e)
    | inr model =>
    match export_vocabulary env tok fs with
    | (fs1, ev1, inl e) => (fs1, load_events ++ ev1, inl e)
    | (fs1, ev1, inr _) =>
    match jit_trace env (traced_wrapper model) (example_inputs env) with
    | inl e => (fs1, load_events ++ ev1 ++ take 2 (stage_events env), inl e)
    | inr traced =>
    match ct_convert env traced main_convert_args with
    | inl e => (fs1, load_events ++ ev1 ++ take 5 (stage_events env), inl e)
    | inr mlmodel =>
    match affine_quantize_weights env mlmodel "linear" int8 with
    | inl e => (fs1, load_events ++ ev1 ++ (stage_events env), inl e)
    | inr mlmodel_int8 =>
    match save_model env mlmodel_int8 fs1 with
    | (fs2, ev2, r) => (fs2, load_events ++ ev1 ++ (stage_events env) ++ ev2, r)
    end end end end end end end.
Proof.
  unfold main. unfold mbind at 1 2 3 4 5, M_mbind, M_bind at 1 2 3 4 5, emit at 1, call at 1 2.
  destruct (auto_tokenizer env MODEL_NAME) as [e|tok]; [done|].
  destruct (auto_model env MODEL_NAME "eager") as [e|model]; [done|].
  destruct (export_vocabulary env tok fs) as [[fs1 ev1] [e|[]]]; [done|].
  unfold mbind, M_mbind, M_bind. rewrite trace_model_run.
  destruct (jit_trace env (traced_wrapper model) (example_inputs env)) as [e|traced]; [done|].
  unfold convert_model, mbind, M_mbind, M_bind, emit, call.
  destruct (ct_convert env traced main_convert_args) as [e|mlmodel]; [done|].
  unfold quantize_model, mbind, M_mbind, M_bind, emit, call.
  destruct (affine_quantize_weights env mlmodel "linear" int8) as [e|mlmodel_int8]; [done|].
  by destruct (save_model env mlmodel_int8 fs1) as [[fs2 ev2] r].
Qed.

End MainFacts.

(** ** Events of the stages *)

Lemma trace_calls_app (a b : list event) :
  trace_calls (a ++ b) = trace_calls a ++ trace_calls b.
Proof. apply omap_app. Qed.

Lemma convert_calls_app (a b : list event) :
  convert_calls (a ++ b) = convert_calls a ++ convert_calls b.
Proof. apply omap_app. Qed.

Lemma no_model_stage_calls (evs : list event) :
  Forall (fun e => model_stage e = false) evs ->
  trace_calls evs = [] /\ convert_calls evs = [].
Proof.
  induction 1 as [|e evs He Hevs [IH1 IH2]]; [done|].
  unfold trace_calls, convert_calls in *. cbn [omap list_omap]. rewrite IH1, IH2.
  by destruct e.
Qed.

Section StageFacts.

Context {Rng Hidden Scores Traced MLModel : Type}.
Variable env : Env Rng Hidden Scores Traced MLModel.

Lemma vocab_path_not_package (q : path) : vocab_path env <> mlpackage_path env ++ q.
Proof.
  unfold vocab_path, mlpackage_path. rewrite <- app_assoc. intros H.
  apply app_inv_head in H. discriminate.
Qed.

Lemma mlpackage_path_not_vocab : mlpackage_path env <> vocab_path env.
Proof.
  intros H. apply (vocab_path_not_package []). by rewrite app_nil_r.
Qed.

Lemma stat_mlpackage_path (fs : filesystem) :
  stat fs (mlpackage_path env) = fs !! mlpackage_path env.
Proof. apply stat_snoc. Qed.

(** The export emits no event of a later stage. *)
Lemma export_vocabulary_events (tok : tokenizer) (fs : filesystem) :
  Forall (fun e => model_stage e = false /\ package_stage e = false)
         (export_vocabulary env tok fs).1.2.
Proof.
  destruct (export_vocabulary_cases env tok fs)
    as [(e & _ & ->)|[(fs0 & e & _ & _ & ->)|
        [(fs0 & c' & evw & _ & _ & Hev & _ & ->)|(fs0 & _ & _ & _ & ->)]]];
    cbn [fst snd]; try by repeat constructor.
  - do 2 (constructor; [done|]). apply Forall_app. split; [|by repeat constructor].
    eapply Forall_impl; [exact Hev|]. intros e He. split; apply He.
  - do 2 (constructor; [done|]). apply Forall_app. split; [|by repeat constructor].
    apply Forall_fmap, Forall_true. done.
Qed.

(** A successful export has closed the file, which holds the whole text. *)
Lemma export_vocabulary_done (tok : tokenizer) (fs fs1 : filesystem)
    (ev1 : list event) (u : unit) :
  export_vocabulary env tok fs = (fs1, ev1, inr u) ->
  EvClose (vocab_path env) ∈ ev1 /\
  fs1 !! vocab_path env = Some (File (vocab_text (get_vocab tok))).
Proof.
  destruct (export_vocabulary_cases env tok fs)
    as [(e & _ & ->)|[(fs0 & e & _ & _ & ->)|
        [(fs0 & c' & evw & _ & _ & _ & _ & ->)|(fs0 & _ & _ & _ & ->)]]]; try done.
  intros [= <- <- _]. split; [|apply lookup_insert_eq].
  do 2 apply list_elem_of_further. apply elem_of_app. right. apply list_elem_of_here.
Qed.

(** The export keeps every entry that was there, [vocab.txt] apart. *)
Lemma export_vocabulary_keeps (tok : tokenizer) (fs : filesystem) (q : path) (n : node) :
  q <> vocab_path env ->
  fs !! q = Some n ->
  (export_vocabulary env tok fs).1.1 !! q = Some n.
Proof.
  intros Hq Hn.
  destruct (export_vocabulary_cases env tok fs)
    as [(e & _ & ->)|[(fs0 & e & Emk & _ & ->)|
        [(fs0 & c' & evw & Emk & _ & _ & _ & ->)|(fs0 & Emk & _ & _ & ->)]]];
    cbn [fst]; [done| |rewrite lookup_insert_ne by done..];
    by eapply mkdir_from_keeps.
Qed.

Lemma fs_rmtree_lookup (p : path) (fs fs1 : filesystem) (q : path) :
  fs_rmtree p fs = inr fs1 ->
  fs1 !! q = if decide (p `prefix_of` q) then None else fs !! q.
Proof.
  unfold fs_rmtree. destruct (stat fs p) as [[?|]|]; intros [= <-].
  rewrite map_lookup_filter. destruct (fs !! q) as [n|] eqn:Eq; cbn.
  - case_decide as Hp; cbn in *.
    + by rewrite option_guard_False by (cbn; tauto).
    + by rewrite option_guard_True.
  - by case_decide.
Qed.

Lemma fs_save_lookup_inside (pkg : gmap path node) (p : path) (fs fs2 : filesystem) (q : path) :
  fs_save pkg p fs = inr fs2 ->
  fs2 !! (p ++ q) =
    match pkg !! q with
    | Some n => Some n
    | None => if decide (q = []) then Some Dir else fs !! (p ++ q)
    end.
Proof.
  unfold fs_save.
  destruct (stat fs p) as [[?|]|]; [done| |];
    (destruct (stat fs (parent p)) as [[?|]|]; intros [= <-];
     rewrite lookup_union, (lookup_kmap (fun q => p ++ q));
     destruct (pkg !! q) as [n|]; cbn;
     [by destruct (<[p:=Dir]> fs !! (p ++ q))|];
     rewrite (left_id None (∪)); case_decide as Hq;
     [subst q; rewrite app_nil_r; apply lookup_insert_eq|];
     apply lookup_insert_ne; intros Heq;
     apply Hq; apply (f_equal length) in Heq; rewrite length_app in Heq;
     destruct q; [done|cbn in Heq; lia]).
Qed.

Lemma fs_save_lookup_outside (pkg : gmap path node) (p : path) (fs fs2 : filesystem) (r : path) :
  fs_save pkg p fs = inr fs2 ->
  (forall q, r <> p ++ q) ->
  fs2 !! r = fs !! r.
Proof.
  unfold fs_save. intros Hrun Hr.
  assert ((kmap (fun q => p ++ q) pkg : filesystem) !! r = None) as Hk.
  { apply lookup_kmap_None; [apply _|]. intros q ->. by destruct (Hr q). }
  assert (r <> p) as Hp by (intros ->; apply (Hr []); by rewrite app_nil_r).
  destruct (stat fs p) as [[?|]|]; [done| |];
    (destruct (stat fs (parent p)) as [[?|]|]; simplify_eq;
     rewrite lookup_union, Hk, (left_id None (∪)); by apply lookup_insert_ne).
Qed.

(** Saving the package does not touch [vocab.txt]. *)
Lemma save_model_keeps_vocab (mlmodel_int8 : MLModel) (fs : filesystem) :
  (save_model env mlmodel_int8 fs).1.1 !! vocab_path env = fs !! vocab_path env.
Proof.
  rewrite save_model_run. cbn zeta.
  assert (forall q, vocab_path env <> mlpackage_path env ++ q) as Hout
    by apply vocab_path_not_package.
  assert (~ mlpackage_path env `prefix_of` vocab_path env) as Hpre
    by (intros [q Hq]; by apply (Hout q)).
  destruct (fs_exists fs (mlpackage_path env)).
  - destruct (fs_rmtree _ fs) as [e|fs1] eqn:Erm; cbn [fst]; [done|].
    assert (fs1 !! vocab_path env = fs !! vocab_path env) as Hrm.
    { erewrite fs_rmtree_lookup by done. by rewrite decide_False. }
    destruct (fs_save _ _ fs1) as [e|fs2] eqn:Esv; cbn [fst]; [done|].
    by erewrite fs_save_lookup_outside.
  - destruct (fs_save _ _ fs) as [e|fs2] eqn:Esv; cbn [fst]; [done|].
    by erewrite fs_save_lookup_outside.
Qed.

Lemma save_model_events (mlmodel_int8 : MLModel) (fs : filesystem) :
  Forall (fun e => model_stage e = false) (save_model env mlmodel_int8 fs).1.2.
Proof.
  rewrite save_model_run. cbn zeta.
  destruct (fs_exists fs (mlpackage_path env)).
  - destruct (fs_rmtree _ fs) as [e|fs1]; cbn [fst snd]; [by repeat constructor|].
    destruct (fs_save _ _ fs1); cbn [fst snd]; by repeat constructor.
  - destruct (fs_save _ _ fs); cbn [fst snd]; by repeat constructor.
Qed.

End StageFacts.

(** ** Replacing the package *)

Section PackageFacts.

Context {Rng Hidden Scores Traced MLModel : Type}.
Variable env : Env Rng Hidden Scores Traced MLModel.

Lemma fs_exists_mlpackage (fs : filesystem) :
  fs_exists fs (mlpackage_path env) = true <-> is_Some (fs !! mlpackage_path env).
Proof.
  unfold fs_exists. rewrite stat_mlpackage_path.
  destruct (fs !! mlpackage_path env); split; try done; by intros [? ?].
Qed.

(** After a successful save the package directory exists. *)
Lemma save_model_leaves_package (mlmodel_int8 : MLModel) (fs : filesystem) :
  (save_model env mlmodel_int8 fs).2 = inr tt ->
  is_Some ((save_model env mlmodel_int8 fs).1.1 !! mlpackage_path env).
Proof.
  rewrite save_model_run. cbn zeta.
  assert (forall fs1 fs2,
    fs_save (package_files env mlmodel_int8) (mlpackage_path env) fs1 = inr fs2 ->
    is_Some (fs2 !! mlpackage_path env)) as Hsave.
  { intros fs1 fs2 H. pose proof (fs_save_lookup_inside _ _ _ _ [] H) as Hl.
    rewrite app_nil_r in Hl. rewrite Hl.
    destruct (package_files env mlmodel_int8 !! []); by eexists. }
  destruct (fs_exists fs (mlpackage_path env)).
  - destruct (fs_rmtree _ fs) as [e|fs1]; cbn [fst snd]; [done|].
    destruct (fs_save _ _ fs1) as [e|fs2] eqn:Esv; cbn [fst snd]; [done|]. eauto.
  - destruct (fs_save _ _ fs) as [e|fs2] eqn:Esv; cbn [fst snd]; [done|]. eauto.
Qed.

(** When the package directory exists, a successful save first removes it:
    below the destination there is then the new package and nothing else. *)
Lemma save_model_replaces (mlmodel_int8 : MLModel) (fs : filesystem) :
  is_Some (fs !! mlpackage_path env) ->
  (save_model env mlmodel_int8 fs).2 = inr tt ->
  (exists post,
     (save_model env mlmodel_int8 fs).1.2 =
       EvRmtree (mlpackage_path env) ::
       EvSave (mlpackage_path env) (package_files env mlmodel_int8) :: post) /\
  forall q : path,
    (save_model env mlmodel_int8 fs).1.1 !! (mlpackage_path env ++ q) =
      match package_files env mlmodel_int8 !! q with
      | Some n => Some n
      | None => if decide (q = []) then Some Dir else None
      end.
Proof.
  intros Hex%fs_exists_mlpackage. rewrite save_model_run. cbn zeta. rewrite Hex.
  destruct (fs_rmtree _ fs) as [e|fs1] eqn:Erm; cbn [fst snd]; [done|].
  destruct (fs_save _ _ fs1) as [e|fs2] eqn:Esv; cbn [fst snd]; [done|].
  intros _. split; [by eexists|]. intros q.
  rewrite (fs_save_lookup_inside _ _ _ _ q Esv).
  destruct (package_files env mlmodel_int8 !! q); [done|].
  case_decide; [done|]. rewrite (fs_rmtree_lookup _ _ _ _ Erm).
  rewrite decide_True; [done|]. by apply prefix_app_r.
Qed.

(** A successful run, taken apart. *)
Lemma main_success (fs : filesystem) :
  (main env fs).2 = inr tt ->
  exists tok fs1 ev1 mlmodel_int8,
    export_vocabulary env tok fs = (fs1, ev1, inr tt) /\
    (save_model env mlmodel_int8 fs1).2 = inr tt /\
    (main env fs).1.1 = (save_model env mlmodel_int8 fs1).1.1 /\
    (main env fs).1.2 =
      load_events ++ ev1 ++ stage_events env ++ (save_model env mlmodel_int8 fs1).1.2.
Proof.
  rewrite main_run.
  destruct (auto_tokenizer env MODEL_NAME) as [e|tok]; [done|].
  destruct (auto_model env MODEL_NAME "eager") as [e|model]; [done|].
  destruct (export_vocabulary env tok fs) as [[fs1 ev1] [e|[]]] eqn:Eexp; [done|].
  destruct (jit_trace env _ _) as [e|traced]; [done|].
  destruct (ct_convert env traced main_convert_args) as [e|mlmodel]; [done|].
  destruct (affine_quantize_weights env mlmodel "linear" int8) as [e|mlmodel_int8]; [done|].
  destruct (save_model env mlmodel_int8 fs1) as [[fs2 ev2] r] eqn:Esave. cbn [fst snd].
  intros ->. exists tok, fs1, ev1, mlmodel_int8. rewrite Esave. done.
Qed.

End PackageFacts.

(** C4.  When the pipeline is run twice against the same destination and
    both runs succeed, the second run removes the package directory left by
    the first ([rmtree]) just before it saves, and what is below the
    destination afterwards is exactly the package saved by the second run:
    its directory and its entries, with nothing left of the first. *)
Theorem package_replaced_on_second_run {Rng Hidden Scores Traced MLModel : Type}
    (env1 env2 : Env Rng Hidden Scores Traced MLModel) (fs0 : filesystem) :
  script_file env2 = script_file env1 ->
  (main env1 fs0).2 = inr tt ->
  (main env2 (main env1 fs0).1.1).2 = inr tt ->
  exists (mlmodel_int8 : MLModel) (pre post : list event),
    (main env2 (main env1 fs0).1.1).1.2 =
      pre ++ EvRmtree (mlpackage_path env1) ::
             EvSave (mlpackage_path env1) (package_files env2 mlmodel_int8) :: post /\
    Forall (fun e => package_stage e = false) pre /\
    forall q : path,
      (main env2 (main env1 fs0).1.1).1.1 !! (mlpackage_path env1 ++ q) =
        match package_files env2 mlmodel_int8 !! q with
        | Some n => Some n
        | None => if decide (q = []) then Some Dir else None
        end.
Proof.
  intros Hscript Hrun1 Hrun2.
  assert (mlpackage_path env2 = mlpackage_path env1) as Hp
    by (unfold mlpackage_path, OUTPUT_DIR; by rewrite Hscript).
  destruct (main_success env1 fs0 Hrun1) as (tok1 & fsA & evA & m1 & _ & Hs1 & Hfs1 & _).
  pose proof (save_model_leaves_package env1 m1 fsA Hs1) as [n Hn].
  rewrite <- Hfs1 in Hn.
  destruct (main_success env2 _ Hrun2) as (tok2 & fsB & evB & m2 & Hexp & Hs2 & Hfs2 & Hev2).
  assert (is_Some (fsB !! mlpackage_path env2)) as HB.
  { exists n. replace fsB with (export_vocabulary env2 tok2 (main env1 fs0).1.1).1.1
      by (by rewrite Hexp).
    apply export_vocabulary_keeps; [apply mlpackage_path_not_vocab|by rewrite Hp]. }
  destruct (save_model_replaces env2 m2 fsB HB Hs2) as [[post Hpost] Hlook].
  exists m2, (load_events ++ evB ++ stage_events env2), post.
  split; [|split].
  - rewrite Hev2, Hpost, Hp. by rewrite <- !app_assoc.
  - apply Forall_app. split; [by repeat constructor|].
    apply Forall_app. split; [|by repeat constructor].
    pose proof (export_vocabulary_events env2 tok2 (main env1 fs0).1.1) as Hev.
    rewrite Hexp in Hev. cbn [fst snd] in Hev.
    eapply Forall_impl; [exact Hev|]. by intros e [_ ?].
  - intros q. rewrite Hfs2, <- Hp. apply Hlook.
Qed.

Lemma package_replaced_on_second_run_witness :
  exists (mlmodel_int8 : bool) (pre post : list event),
    (main toy_env (main toy_env stale_fs).1.1).1.2 =
      pre ++ EvRmtree (mlpackage_path toy_env) ::
             EvSave (mlpackage_path toy_env) (package_files toy_env mlmodel_int8) :: post /\
    Forall (fun e => package_stage e = false) pre /\
    forall q : path,
      (main toy_env (main toy_env stale_fs).1.1).1.1 !! (mlpackage_path toy_env ++ q) =
        match package_files toy_env mlmodel_int8 !! q with
        | Some n => Some n
        | None => if decide (q = []) then Some Dir else None
        end.
Proof.
  apply (package_replaced_on_second_run toy_env toy_env stale_fs).
  - reflexivity.
  - vm_compute. reflexivity.
  - vm_compute. reflexivity.
Defined.

(** ** The order of the stages *)

Section OrderFacts.

Context {Rng Hidden Scores Traced MLModel : Type}.
Variable env : Env Rng Hidden Scores Traced MLModel.

Lemma export_events_calls (tok : tokenizer) (fs fs1 : filesystem)
    (ev1 : list event) (r : result unit) :
  export_vocabulary env tok fs = (fs1, ev1, r) ->
  Forall (fun e => model_stage e = false) ev1.
Proof.
  intros Hexp. pose proof (export_vocabulary_events env tok fs) as Hev.
  rewrite Hexp in Hev. cbn [fst snd] in Hev.
  eapply Forall_impl; [exact Hev|]. by intros e [? _].
Qed.

(** The calls to the tracer and to the converter in a run of [main], by
    the outcome of each step: none as long as the run stops before the
    stage, one from then on; an exception of the tracer or of the converter
    ends the run. *)
Lemma main_stage_calls (fs : filesystem) :
  match auto_tokenizer env MODEL_NAME with
  | inl _ => trace_calls (main env fs).1.2 = [] /\ convert_calls (main env fs).1.2 = []
  | inr tok =>
    match auto_model env MODEL_NAME "eager" with
    | inl _ => trace_calls (main env fs).1.2 = [] /\ convert_calls (main env fs).1.2 = []
    | inr model =>
      match (export_vocabulary env tok fs).2 with
      | inl _ => trace_calls (main env fs).1.2 = [] /\ convert_calls (main env fs).1.2 = []
      | inr _ =>
        trace_calls (main env fs).1.2 = [example_inputs env] /\
        match jit_trace env (traced_wrapper model) (example_inputs env) with
        | inl e => convert_calls (main env fs).1.2 = [] /\ (main env fs).2 = inl e
        | inr traced =>
          convert_calls (main env fs).1.2 = [main_convert_args] /\
          forall e, ct_convert env traced main_convert_args = inl e ->
                    (main env fs).2 = inl e
        end
      end
    end
  end.
Proof.
  rewrite main_run.
  destruct (auto_tokenizer env MODEL_NAME) as [e|tok]; [done|].
  destruct (auto_model env MODEL_NAME "eager") as [e|model]; [done|].
  destruct (export_vocabulary env tok fs) as [[fs1 ev1] r1] eqn:Eexp.
  destruct (no_model_stage_calls ev1 (export_events_calls tok fs fs1 ev1 r1 Eexp))
    as [Ht1 Hc1].
  destruct r1 as [e|[]]; cbn [fst snd].
  { by rewrite trace_calls_app, convert_calls_app, Ht1, Hc1. }
  destruct (jit_trace env _ _) as [e|traced]; cbn [fst snd].
  { by rewrite !trace_calls_app, !convert_calls_app, Ht1, Hc1. }
  destruct (ct_convert env traced main_convert_args) as [e|mlmodel]; cbn [fst snd].
  { rewrite !trace_calls_app, !convert_calls_app, Ht1, Hc1.
    split; [done|]. split; [done|]. congruence. }
  destruct (affine_quantize_weights env mlmodel "linear" int8) as [e|mlmodel_int8];
    cbn [fst snd].
  { by rewrite !trace_calls_app, !convert_calls_app, Ht1, Hc1. }
  pose proof (save_model_events env mlmodel_int8 fs1) as Hsv.
  destruct (save_model env mlmodel_int8 fs1) as [[fs2 ev2] r]. cbn [fst snd] in *.
  destruct (no_model_stage_calls ev2 Hsv) as [Ht2 Hc2].
  by rewrite !trace_calls_app, !convert_calls_app, Ht1, Hc1, Ht2, Hc2.
Qed.

End OrderFacts.

(** C6, as the script has it.  In a run of [main] in which the tokenizer and
    the model are loaded, the vocabulary is exported and the tracer returns a
    graph, the converter is called exactly once, on that graph (an exception
    it raises ends the run), with three inputs named input_ids,
    attention_mask and token_type_ids, each of shape [[1, MAX_SEQ_LEN]] and
    type int32, one output named logits that is declared by its name only,
    the mlprogram format and macOS 14 as minimum deployment target; the
    declared input shapes are those of the tensors the wrapper was traced
    on. *)
Theorem convert_called_with_declared_tensors {Rng Hidden Scores Traced MLModel : Type}
    (env : Env Rng Hidden Scores Traced MLModel) (fs : filesystem)
    (tok : tokenizer) (model : hf_model Rng Hidden Scores) (traced : Traced) :
  auto_tokenizer env MODEL_NAME = inr tok ->
  auto_model env MODEL_NAME "eager" = inr model ->
  (export_vocabulary env tok fs).2 = inr tt ->
  jit_trace env (traced_wrapper model) (example_inputs env) = inr traced ->
  let args :=
    ConvertArgs
      [ mkTensorType "input_ids" (Some [1%nat; MAX_SEQ_LEN]) (Some int32);
        mkTensorType "attention_mask" (Some [1%nat; MAX_SEQ_LEN]) (Some int32);
        mkTensorType "token_type_ids" (Some [1%nat; MAX_SEQ_LEN]) (Some int32) ]
      [ mkTensorType "logits" None None ]
      "mlprogram" macOS14 in
  convert_calls (main env fs).1.2 = [args] /\
  (forall e, ct_convert env traced args = inl e -> (main env fs).2 = inl e) /\
  map tt_shape (inputs args) =
    [Some (shape (dummy_ids env)); Some (shape dummy_mask); Some (shape dummy_type_ids)] /\
  MAX_SEQ_LEN = 128%nat.
Proof.
  intros Htok Hmodel Hexp Htrace. cbn zeta.
  pose proof (main_stage_calls env fs) as H.
  rewrite Htok, Hmodel, Hexp, Htrace in H. destruct H as (_ & Hc & Hfail).
  done.
Qed.

Lemma convert_called_with_declared_tensors_witness :
  convert_calls (main toy_env ∅).1.2 =
    [ConvertArgs
       [ mkTensorType "input_ids" (Some [1%nat; MAX_SEQ_LEN]) (Some int32);
         mkTensorType "attention_mask" (Some [1%nat; MAX_SEQ_LEN]) (Some int32);
         mkTensorType "token_type_ids" (Some [1%nat; MAX_SEQ_LEN]) (Some int32) ]
       [ mkTensorType "logits" None None ]
       "mlprogram" macOS14].
Proof.
  apply (convert_called_with_declared_tensors toy_env ∅ (Tokenizer toy_vocab) toy_model 3%nat).
  - reflexivity.
  - reflexivity.
  - vm_compute. reflexivity.
  - reflexivity.
Defined.

(** The output of the only call to the converter in a successful run has a
    name and nothing else: whatever the size [V] of the vocabulary, the call
    declares neither the shape [[1, MAX_SEQ_LEN, V]] nor the type float32
    for it. *)
Lemma convert_called_with_declared_tensors_counterexample :
  (main toy_env ∅).2 = inr tt /\
  exists args,
    convert_calls (main toy_env ∅).1.2 = [args] /\
    map tt_name (outputs args) = ["logits"] /\
    map tt_shape (outputs args) = [None] /\
    map tt_dtype (outputs args) = [None] /\
    forall V : nat,
      map tt_shape (outputs args) <> [Some [1%nat; MAX_SEQ_LEN; V]] /\
      map tt_dtype (outputs args) <> [Some float32].
Proof.
  split; [vm_compute; reflexivity|].
  exists main_convert_args. split; [vm_compute; reflexivity|].
  by repeat split.
Qed.

(** C5.  In every run of [main] that reaches a model stage (tracing,
    conversion, quantization), all the events of these stages come after the
    vocabulary file has been closed, and whether the run then ends normally
    or with the exception of a later stage, the file system it leaves holds
    [vocab.txt] with the whole text of the vocabulary: nothing is rolled
    back. *)
Theorem vocabulary_kept_when_model_stage_fails {Rng Hidden Scores Traced MLModel : Type}
    (env : Env Rng Hidden Scores Traced MLModel) (fs : filesystem) :
  existsb model_stage (main env fs).1.2 = true ->
  exists (tok : tokenizer) (pre post : list event),
    auto_tokenizer env MODEL_NAME = inr tok /\
    (main env fs).1.2 = pre ++ post /\
    EvClose (vocab_path env) ∈ pre /\
    Forall (fun e => model_stage e = false) pre /\
    (main env fs).1.1 !! vocab_path env = Some (File (vocab_text (get_vocab tok))).
Proof.
  assert (forall evs, Forall (fun e => model_stage e = false) evs ->
                      existsb model_stage evs = false) as Hnone.
  { induction 1 as [|e evs He _ IH]; [done|]. cbn. by rewrite He, IH. }
  rewrite main_run.
  destruct (auto_tokenizer env MODEL_NAME) as [e|tok]; [done|].
  destruct (auto_model env MODEL_NAME "eager") as [e|model]; [done|].
  destruct (export_vocabulary env tok fs) as [[fs1 ev1] r1] eqn:Eexp.
  pose proof (export_events_calls env tok fs fs1 ev1 r1 Eexp) as Hev1.
  destruct r1 as [e|[]]; cbn [fst snd].
  { rewrite existsb_app, (Hnone ev1 Hev1). done. }
  destruct (export_vocabulary_done env tok fs fs1 ev1 tt Eexp) as [Hclose Hfile].
  assert (Forall (fun e => model_stage e = false) (load_events ++ ev1)) as Hpre
    by (apply Forall_app; split; [by repeat constructor|done]).
  assert (EvClose (vocab_path env) ∈ load_events ++ ev1) as Hin
    by (apply elem_of_app; by right).
  destruct (jit_trace env _ _) as [e|traced]; cbn [fst snd].
  { intros _. exists tok, (load_events ++ ev1), (take 2 (stage_events env)).
    by rewrite <- app_assoc. }
  destruct (ct_convert env traced main_convert_args) as [e|mlmodel]; cbn [fst snd].
  { intros _. exists tok, (load_events ++ ev1), (take 5 (stage_events env)).
    by rewrite <- app_assoc. }
  destruct (affine_quantize_weights env mlmodel "linear" int8) as [e|mlmodel_int8];
    cbn [fst snd].
  { intros _. exists tok, (load_events ++ ev1), (stage_events env).
    by rewrite <- app_assoc. }
  pose proof (save_model_keeps_vocab env mlmodel_int8 fs1) as Hkeep.
  destruct (save_model env mlmodel_int8 fs1) as [[fs2 ev2] r]. cbn [fst snd] in *.
  intros _. exists tok, (load_events ++ ev1), (stage_events env ++ ev2).
  rewrite <- app_assoc. rewrite Hkeep. done.
Qed.

Lemma vocabulary_kept_when_model_stage_fails_witness :
  (main toy_env_bad_convert ∅).2 = inl (ExternalError "unsupported op") /\
  exists (tok : tokenizer) (pre post : list event),
    auto_tokenizer toy_env_bad_convert MODEL_NAME = inr tok /\
    (main toy_env_bad_convert ∅).1.2 = pre ++ post /\
    EvClose (vocab_path toy_env_bad_convert) ∈ pre /\
    Forall (fun e => model_stage e = false) pre /\
    (main toy_env_bad_convert ∅).1.1 !! vocab_path toy_env_bad_convert =
      Some (File (vocab_text (get_vocab tok))).
Proof.
  split; [vm_compute; reflexivity|].
  apply (vocabulary_kept_when_model_stage_fails toy_env_bad_convert ∅).
  vm_compute. reflexivity.
Defined.

(* ================================================================= *)
(** * Part III: further properties of the script *)
(* ================================================================= *)

(** ** The extended mask on masks of any shape *)

(** X1.  Lines 48-49 accept a mask of any rank from 1 on: a mask of shape
    [d :: rest] gives a tensor of shape [d :: 1 :: 1 :: rest] with as many
    entries, each the bias of the mask entry at the same position; a mask
    without dimensions makes [unsqueeze(1)] raise [IndexError]. *)
Theorem extended_attention_mask_by_rank (attention_mask : tensor Z) :
  match shape attention_mask with
  | [] => extended_attention_mask attention_mask = inl IndexError
  | d :: rest =>
    extended_attention_mask attention_mask =
      inr (Tensor (d :: 1 :: 1 :: rest)%nat (map attention_bias (data attention_mask))) /\
    numel (d :: 1 :: 1 :: rest)%nat = numel (shape attention_mask)
  end.
Proof.
  destruct attention_mask as [[|d rest] l]; cbn [shape data]; [done|].
  split; [|cbn; lia].
  unfold extended_attention_mask, unsqueeze. cbn [shape data length Nat.leb take drop app].
  unfold mul_scalar, rsub_scalar, to_float32, tensor_map. cbn [shape data].
  do 2 f_equal. by rewrite !map_map.
Qed.

(** X2.  A mask of [a] ones followed by [k] zeros (real tokens, then
    padding) gives [a] zeros followed by [k] copies of the binary32 value of
    -3.4028e+38, which is finite: -16777099 * 2^104. *)
Theorem extended_mask_of_padded_mask (a k : nat) :
  extended_attention_mask (Tensor [1; a + k]%nat (replicate a 1 ++ replicate k 0)) =
    inr (Tensor [1; 1; 1; a + k]%nat
           (replicate a (S754_zero true) ++ replicate k (S754_finite true 16777099 104))).
Proof.
  rewrite (extended_attention_mask_eq (a + k)) by done. cbn [data].
  assert (forall (n : nat) (m : Z),
            map attention_bias (replicate n m) = replicate n (attention_bias m)) as Hrep
    by (intros n m; induction n as [|n IH]; cbn; [done|by rewrite IH]).
  rewrite map_app, !Hrep, !attention_bias_cases. reflexivity.
Qed.

(** X3.  Every mask entry that is not positive masks its position: the
    bias is at most -1e38, and it is minus infinity for a negative entry. *)
Theorem attention_bias_of_nonpositive_mask (m : Z) :
  m <= 0 ->
  f32_le_int (attention_bias m) (- 10 ^ 38) /\
  (m < 0 -> attention_bias m = S754_infinity true).
Proof.
  intros Hm. rewrite attention_bias_cases.
  destruct (Z.leb_spec m (-1)); [done|].
  assert (m = 0) as -> by lia. split; [apply neg_big32_le|lia].
Qed.

Lemma attention_bias_of_nonpositive_mask_witness :
  f32_le_int (attention_bias (-5)) (- 10 ^ 38) /\
  (-5 < 0 -> attention_bias (-5) = S754_infinity true).
Proof. apply (attention_bias_of_nonpositive_mask (-5)). lia. Defined.


(** ** The wrapper *)

(** X5.  [__init__] never fails; the buffer it registers has shape
    [[1, max_seq_len]] and holds [j] at position [j], the encoder and the head
    are those of the model, and the new wrapper is in training mode. *)
Theorem wrapper_init_position_ids {Rng Hidden Scores : Type}
    (model : hf_model Rng Hidden Scores) (max_seq_len : nat) :
  exists w,
    wrapper_init model max_seq_len = inr w /\
    w_bert w = bert model /\ w_cls w = cls model /\ w_training w = true /\
    shape (position_ids w) = [1%nat; max_seq_len] /\
    length (data (position_ids w)) = max_seq_len /\
    forall j : nat, (j < max_seq_len)%nat ->
      data (position_ids w) !! j = Some (Z.of_nat j).
Proof.
  eexists. split; [reflexivity|]. cbn [w_bert w_cls w_training position_ids shape data].
  repeat split.
  - unfold arange. cbn [data]. by rewrite length_map, length_seq.
  - intros j Hj. unfold arange. cbn [data].
    rewrite list_lookup_fmap, lookup_seq_lt by done. done.
Qed.

(** X6.  Once [eval()] has been called on the wrapper, [forward] runs no
    layer in training mode: two wrappers with the same buffer whose layers
    agree in eval mode give the same result and the same generator state,
    whatever their layers do in training mode. *)
Theorem forward_after_eval_ignores_training {Rng Hidden Scores : Type}
    (w w' : MaskedLMWrapper Rng Hidden Scores)
    (input_ids attention_mask token_type_ids : tensor Z) (g : Rng) :
  position_ids w = position_ids w' ->
  (forall x g, impl (embeddings (w_bert w)) false x g =
               impl (embeddings (w_bert w')) false x g) ->
  (forall x g, impl (encoder (w_bert w)) false x g =
               impl (encoder (w_bert w')) false x g) ->
  (forall x g, impl (w_cls w) false x g = impl (w_cls w') false x g) ->
  forward (wrapper_eval w) input_ids attention_mask token_type_ids g =
  forward (wrapper_eval w') input_ids attention_mask token_type_ids g.
Proof.
  intros Hpos H1 H2 H3.
  unfold forward, wrapper_eval, bert_eval, module_eval, invoke. cbn.
  destruct (extended_attention_mask attention_mask) as [e|extended_mask]; [done|].
  rewrite Hpos, H1. destruct (impl _ false _ g) as [[e|embedding_output] g1]; [done|].
  rewrite H2. destruct (impl _ false _ g1) as [[e|encoder_output] g2]; [done|].
  by rewrite H3.
Qed.

Lemma forward_after_eval_ignores_training_witness :
  forward (wrapper_eval toy_wrapper)
    (Tensor [1; 4]%nat [5; 6; 7; 8]) (Tensor [1; 4]%nat [1; 1; 1; 0])
    (Tensor [1; 4]%nat [0; 0; 0; 0]) 3%nat =
  forward (wrapper_eval toy_wrapper_quiet)
    (Tensor [1; 4]%nat [5; 6; 7; 8]) (Tensor [1; 4]%nat [1; 1; 1; 0])
    (Tensor [1; 4]%nat [0; 0; 0; 0]) 3%nat.
Proof.
  apply (forward_after_eval_ignores_training toy_wrapper toy_wrapper_quiet);
    reflexivity.
Defined.

(** ** The vocabulary file and the mapping *)

Lemma NoDup_key_inj {A} (key : A -> Z) (l : list A) (x y : A) :
  NoDup (map key l) -> x ∈ l -> y ∈ l -> key x = key y -> x = y.
Proof.
  induction l as [|a l IH]; intros Hnd Hx Hy Hk; [by apply elem_of_nil in Hx|].
  cbn in Hnd. apply NoDup_cons in Hnd as [Ha Hnd].
  apply elem_of_cons in Hx as [->|Hx], Hy as [->|Hy]; [done| | |by apply IH].
  - destruct Ha. rewrite Hk. apply list_elem_of_fmap. by exists y.
  - destruct Ha. rewrite <- Hk. apply list_elem_of_fmap. by exists x.
Qed.

Lemma pairs_eq {A B} (l1 l2 : list (A * B)) :
  map fst l1 = map fst l2 -> map snd l1 = map snd l2 -> l1 = l2.
Proof.
  revert l2. induction l1 as [|[a b] l1 IH]; intros [|[a' b'] l2] Hf Hs;
    cbn in *; try done.
  simplify_eq. f_equal. by apply IH.
Qed.

(** X7.  When no two tokens share an id, the file does not depend on the
    order in which the tokenizer lists its vocabulary. *)
Theorem vocab_text_insertion_order (vocab1 vocab2 : list (string * Z)) :
  vocab1 ≡ₚ vocab2 ->
  NoDup (map snd vocab1) ->
  vocab_text vocab1 = vocab_text vocab2.
Proof.
  intros Hperm Hnd. unfold vocab_text. do 2 f_equal.
  apply (StronglySorted_unique_strong (fun a b : string * Z => snd a <= snd b)).
  - intros x1 x2 Hx1 Hx2 H12 H21.
    rewrite (sorted_Permutation snd vocab1) in Hx1.
    rewrite (sorted_Permutation snd vocab2), <- Hperm in Hx2.
    apply (NoDup_key_inj snd vocab1); [done..|lia].
  - apply sorted_StronglySorted.
  - apply sorted_StronglySorted.
  - by rewrite (sorted_Permutation snd vocab1), (sorted_Permutation snd vocab2).
Qed.

Lemma vocab_text_insertion_order_witness :
  vocab_text [("b", 1); ("c", 2); ("a", 0)] = vocab_text [("a", 0); ("b", 1); ("c", 2)].
Proof.
  apply (vocab_text_insertion_order [("b", 1); ("c", 2); ("a", 0)]
                                    [("a", 0); ("b", 1); ("c", 2)]).
  - apply (Permutation_trans (l' := [("b", 1); ("a", 0); ("c", 2)])).
    + apply perm_skip, perm_swap.
    + apply perm_swap.
  - cbn. repeat (apply NoDup_cons; split;
      [intros H; repeat (apply elem_of_cons in H as [H|H]; [lia|]); by apply elem_of_nil in H|]).
    apply NoDup_nil. done.
Defined.

Lemma vocab_text_determines (vocab1 vocab2 : list (string * Z)) :
  Forall (fun kv => count_newlines (fst kv) = 0%nat) vocab1 ->
  Forall (fun kv => count_newlines (fst kv) = 0%nat) vocab2 ->
  (forall i : Z, 0 <= i < Z.of_nat (length vocab1) -> exists t, (t, i) ∈ vocab1) ->
  (forall i : Z, 0 <= i < Z.of_nat (length vocab2) -> exists t, (t, i) ∈ vocab2) ->
  vocab_text vocab1 = vocab_text vocab2 ->
  vocab1 ≡ₚ vocab2.
Proof.
  intros Hnl1 Hnl2 Hc1 Hc2 Htext.
  assert (map fst (sorted snd vocab1) = map fst (sorted snd vocab2)) as Hfst.
  { rewrite <- !lines_vocab_writes.
    - unfold vocab_text in Htext. by rewrite Htext.
    - by rewrite (sorted_Permutation snd vocab2).
    - by rewrite (sorted_Permutation snd vocab1). }
  assert (length vocab1 = length vocab2) as Hlen.
  { rewrite <- (length_sorted snd vocab1), <- (length_sorted snd vocab2).
    rewrite <- (length_map fst (sorted snd vocab1)), Hfst. by rewrite length_map. }
  assert (sorted snd vocab1 = sorted snd vocab2) as Heq.
  { apply pairs_eq; [done|].
    rewrite (sorted_ids_contiguous vocab1 Hc1), (sorted_ids_contiguous vocab2 Hc2).
    by rewrite Hlen. }
  by rewrite <- (sorted_Permutation snd vocab1), Heq, (sorted_Permutation snd vocab2).
Qed.

(** X8.  The file determines the mapping: when two vocabularies with
    contiguous ids from 0 and tokens without line feed are both exported
    successfully and the two [vocab.txt] files are the same, the
    vocabularies have the same entries. *)
Theorem vocab_file_determines_mapping {Rng Hidden Scores Traced MLModel : Type}
    (env1 env2 : Env Rng Hidden Scores Traced MLModel)
    (tok1 tok2 : tokenizer) (fsA fsB : filesystem) :
  Forall (fun kv => count_newlines (fst kv) = 0%nat) (get_vocab tok1) ->
  Forall (fun kv => count_newlines (fst kv) = 0%nat) (get_vocab tok2) ->
  (forall i : Z, 0 <= i < Z.of_nat (length (get_vocab tok1)) ->
                 exists t, (t, i) ∈ get_vocab tok1) ->
  (forall i : Z, 0 <= i < Z.of_nat (length (get_vocab tok2)) ->
                 exists t, (t, i) ∈ get_vocab tok2) ->
  (export_vocabulary env1 tok1 fsA).2 = inr tt ->
  (export_vocabulary env2 tok2 fsB).2 = inr tt ->
  (export_vocabulary env1 tok1 fsA).1.1 !! vocab_path env1 =
    (export_vocabulary env2 tok2 fsB).1.1 !! vocab_path env2 ->
  get_vocab tok1 ≡ₚ get_vocab tok2.
Proof.
  intros Hnl1 Hnl2 Hc1 Hc2 Hok1 Hok2 Hsame.
  destruct (export_vocabulary env1 tok1 fsA) as [[fs1 ev1] r1] eqn:E1.
  destruct (export_vocabulary env2 tok2 fsB) as [[fs2 ev2] r2] eqn:E2.
  cbn [fst snd] in *. subst r1 r2.
  destruct (export_vocabulary_done env1 tok1 fsA fs1 ev1 tt E1) as [_ H1].
  destruct (export_vocabulary_done env2 tok2 fsB fs2 ev2 tt E2) as [_ H2].
  rewrite H1, H2 in Hsame. apply vocab_text_determines; [done..|congruence].
Qed.

Lemma vocab_file_determines_mapping_witness :
  get_vocab (Tokenizer [("b", 1); ("a", 0)]) ≡ₚ get_vocab (Tokenizer [("a", 0); ("b", 1)]).
Proof.
  apply (vocab_file_determines_mapping toy_env toy_env
           (Tokenizer [("b", 1); ("a", 0)]) (Tokenizer [("a", 0); ("b", 1)]) ∅ stale_fs).
  - repeat constructor.
  - repeat constructor.
  - intros i Hi. cbn in Hi.
    assert (i = 0 \/ i = 1) as [-> | ->] by lia;
      eexists; repeat first [apply list_elem_of_here | apply list_elem_of_further].
  - intros i Hi. cbn in Hi.
    assert (i = 0 \/ i = 1) as [-> | ->] by lia;
      eexists; repeat first [apply list_elem_of_here | apply list_elem_of_further].
  - vm_compute. reflexivity.
  - vm_compute. reflexivity.
  - vm_compute. reflexivity.
Defined.

(** ** What the export changes in the file system *)

Lemma mkdir_from_changes (base todo : path) (fs fs1 : filesystem) (q : path) :
  mkdir_from base todo fs = inr fs1 ->
  fs1 !! q = fs !! q \/
  (fs !! q = None /\ fs1 !! q = Some Dir /\ q `prefix_of` base ++ todo).
Proof.
  revert base fs. induction todo as [|c rest IH]; intros base fs Hrun.
  { cbn in Hrun. simplify_eq. by left. }
  cbn [mkdir_from] in Hrun.
  assert (base ++ c :: rest = (base ++ [c]) ++ rest) as Happ by (by rewrite <- app_assoc).
  rewrite Happ.
  destruct (fs !! (base ++ [c])) as [[?|]|] eqn:Eq; [done| |].
  - by eapply IH.
  - destruct (IH _ _ Hrun) as [Hsame|(Hnone & Hdir & Hpre)].
    + destruct (decide (q = base ++ [c])) as [->|Hne].
      * right. rewrite Hsame, lookup_insert_eq. split; [done|]. split; [done|].
        by apply prefix_app_r.
      * left. by rewrite Hsame, lookup_insert_ne.
    + destruct (decide (q = base ++ [c])) as [->|Hne].
      * by rewrite lookup_insert_eq in Hnone.
      * right. by rewrite lookup_insert_ne in Hnone.
Qed.

Section ExportFrame.

Context {Rng Hidden Scores Traced MLModel : Type}.
Variable env : Env Rng Hidden Scores Traced MLModel.

Lemma export_vocabulary_changes (tok : tokenizer) (fs : filesystem) (q : path) :
  q <> vocab_path env ->
  (export_vocabulary env tok fs).1.1 !! q = fs !! q \/
  (fs !! q = None /\ (export_vocabulary env tok fs).1.1 !! q = Some Dir /\
   q `prefix_of` OUTPUT_DIR env).
Proof.
  intros Hq.
  destruct (export_vocabulary_cases env tok fs)
    as [(e & _ & ->)|[(fs0 & e & Emk & _ & ->)|
        [(fs0 & c' & evw & Emk & _ & _ & _ & ->)|(fs0 & Emk & _ & _ & ->)]]];
    cbn [fst]; [by left| |rewrite lookup_insert_ne by done..];
    exact (mkdir_from_changes [] _ fs fs0 q Emk).
Qed.

Lemma mlpackage_not_prefix (q : path) :
  ~ (mlpackage_path env ++ q) `prefix_of` OUTPUT_DIR env.
Proof.
  intros H%prefix_length. unfold mlpackage_path in H.
  rewrite !length_app in H. cbn in H. lia.
Qed.

(** The export leaves the destination of the package alone. *)
Lemma export_vocabulary_keeps_package (tok : tokenizer) (fs : filesystem) (q : path) :
  (export_vocabulary env tok fs).1.1 !! (mlpackage_path env ++ q) =
    fs !! (mlpackage_path env ++ q).
Proof.
  destruct (export_vocabulary_changes tok fs (mlpackage_path env ++ q))
    as [H|(_ & _ & Hpre)]; [|done|].
  - intros H. by apply (vocab_path_not_package env q).
  - by apply mlpackage_not_prefix in Hpre.
Qed.

End ExportFrame.

(** X9.  Whether it succeeds or fails, the export touches nothing but
    [vocab.txt] and the directories it has to create: any other path either
    keeps its entry, or was missing, is a prefix of the output directory and
    is now a directory. *)
Theorem export_vocabulary_frame {Rng Hidden Scores Traced MLModel : Type}
    (env : Env Rng Hidden Scores Traced MLModel)
    (tok : tokenizer) (fs : filesystem) (q : path) :
  q <> vocab_path env ->
  (export_vocabulary env tok fs).1.1 !! q = fs !! q \/
  (fs !! q = None /\ (export_vocabulary env tok fs).1.1 !! q = Some Dir /\
   q `prefix_of` OUTPUT_DIR env).
Proof. apply export_vocabulary_changes. Qed.

Lemma export_vocabulary_frame_witness :
  (export_vocabulary toy_env (Tokenizer toy_vocab) stale_fs).1.1
     !! ["repo"; "Resources"; "DictaBERT_INT8.mlpackage"; "old.bin"] =
    stale_fs !! ["repo"; "Resources"; "DictaBERT_INT8.mlpackage"; "old.bin"] \/
  (stale_fs !! ["repo"; "Resources"; "DictaBERT_INT8.mlpackage"; "old.bin"] = None /\
   (export_vocabulary toy_env (Tokenizer toy_vocab) stale_fs).1.1
     !! ["repo"; "Resources"; "DictaBERT_INT8.mlpackage"; "old.bin"] = Some Dir /\
   ["repo"; "Resources"; "DictaBERT_INT8.mlpackage"; "old.bin"]
     `prefix_of` OUTPUT_DIR toy_env).
Proof.
  apply (export_vocabulary_frame toy_env (Tokenizer toy_vocab) stale_fs).
  vm_compute. discriminate.
Defined.

(** ** Runs of [main] that stop early *)

Lemma existsb_false_of_Forall (f : event -> bool) (evs : list event) :
  Forall (fun e => f e = false) evs -> existsb f evs = false.
Proof. induction 1 as [|e evs He _ IH]; [done|]. cbn. by rewrite He, IH. Qed.

(** X10.  When the tokenizer or the model cannot be loaded, the run ends
    with an exception before anything is written: the file system is
    unchanged, and the model is not even asked for when the tokenizer
    failed. *)
Theorem main_stops_when_loading_fails {Rng Hidden Scores Traced MLModel : Type}
    (env : Env Rng Hidden Scores Traced MLModel) (fs : filesystem) :
  is_ok (auto_tokenizer env MODEL_NAME) = false \/
  is_ok (auto_model env MODEL_NAME "eager") = false ->
  (main env fs).1.1 = fs /\
  is_ok (main env fs).2 = false /\
  (main env fs).1.2 =
    if is_ok (auto_tokenizer env MODEL_NAME)
    then [EvPrint (MsgLoading MODEL_NAME); EvLoadTokenizer MODEL_NAME;
          EvLoadModel MODEL_NAME "eager"]
    else [EvPrint (MsgLoading MODEL_NAME); EvLoadTokenizer MODEL_NAME].
Proof.
  intros Hfail. rewrite main_run.
  destruct (auto_tokenizer env MODEL_NAME) as [e|tok]; [done|].
  destruct (auto_model env MODEL_NAME "eager") as [e|model]; [done|].
  by destruct Hfail.
Qed.

Lemma main_stops_when_loading_fails_witness :
  (main toy_env_no_model stale_fs).1.1 = stale_fs /\
  is_ok (main toy_env_no_model stale_fs).2 = false /\
  (main toy_env_no_model stale_fs).1.2 =
    if is_ok (auto_tokenizer toy_env_no_model MODEL_NAME)
    then [EvPrint (MsgLoading MODEL_NAME); EvLoadTokenizer MODEL_NAME;
          EvLoadModel MODEL_NAME "eager"]
    else [EvPrint (MsgLoading MODEL_NAME); EvLoadTokenizer MODEL_NAME].
Proof.
  apply (main_stops_when_loading_fails toy_env_no_model stale_fs).
  right. reflexivity.
Defined.

Section EarlyStop.

Context {Rng Hidden Scores Traced MLModel : Type}.
Variable env : Env Rng Hidden Scores Traced MLModel.

Lemma save_model_has_package_event (mlmodel_int8 : MLModel) (fs : filesystem) :
  existsb package_stage (save_model env mlmodel_int8 fs).1.2 = true.
Proof.
  rewrite save_model_run. cbn zeta.
  destruct (fs_exists fs (mlpackage_path env)).
  - destruct (fs_rmtree _ fs) as [e|fs1]; [done|]. by destruct (fs_save _ _ fs1).
  - by destruct (fs_save _ _ fs).
Qed.

Lemma package_kept_before_package_stage (fs : filesystem) (q : path) :
  existsb package_stage (main env fs).1.2 = false ->
  (main env fs).1.1 !! (mlpackage_path env ++ q) = fs !! (mlpackage_path env ++ q).
Proof.
  rewrite main_run.
  destruct (auto_tokenizer env MODEL_NAME) as [e|tok]; [done|].
  destruct (auto_model env MODEL_NAME "eager") as [e|model]; [done|].
  pose proof (export_vocabulary_keeps_package env tok fs q) as Hkeep.
  destruct (export_vocabulary env tok fs) as [[fs1 ev1] [e|[]]]; cbn [fst snd] in *;
    [done|].
  destruct (jit_trace env _ _) as [e|traced]; [done|].
  destruct (ct_convert env traced main_convert_args) as [e|mlmodel]; [done|].
  destruct (affine_quantize_weights env mlmodel "linear" int8) as [e|mlmodel_int8]; [done|].
  pose proof (save_model_has_package_event mlmodel_int8 fs1) as Hsv.
  destruct (save_model env mlmodel_int8 fs1) as [[fs2 ev2] r]. cbn [fst snd] in *.
  rewrite !existsb_app, Hsv, !orb_true_r. done.
Qed.

End EarlyStop.

(** X11.  The package at the destination is touched only by the last stage:
    in a run that ends before [rmtree] or [save] is called (a loader, the
    export, the tracer, the converter or the quantizer raised), everything
    at and below the package path is as it was, so a package installed
    earlier stays in place. *)
Theorem package_kept_when_run_stops_early {Rng Hidden Scores Traced MLModel : Type}
    (env : Env Rng Hidden Scores Traced MLModel) (fs : filesystem) (q : path) :
  existsb package_stage (main env fs).1.2 = false ->
  (main env fs).1.1 !! (mlpackage_path env ++ q) = fs !! (mlpackage_path env ++ q).
Proof. apply package_kept_before_package_stage. Qed.

Lemma package_kept_when_run_stops_early_witness :
  (main toy_env_bad_convert stale_fs).1.1 !! (mlpackage_path toy_env_bad_convert ++ ["old.bin"]) =
    stale_fs !! (mlpackage_path toy_env_bad_convert ++ ["old.bin"]).
Proof.
  apply (package_kept_when_run_stops_early toy_env_bad_convert stale_fs ["old.bin"]).
  vm_compute. reflexivity.
Defined.

(** ** Runs of [main] that reach the package stage *)

Lemma printed_app (a b : list event) : printed (a ++ b) = printed a ++ printed b.
Proof. apply omap_app. Qed.

Lemma printed_writes (p : path) (l : list string) : printed (map (EvWrite p) l) = [].
Proof. induction l as [|s l IH]; [done|]. exact IH. Qed.

Section LastStage.

Context {Rng Hidden Scores Traced MLModel : Type}.
Variable env : Env Rng Hidden Scores Traced MLModel.






End LastStage.



(** X13.  When a regular file sits at the package path (the libraries do
    not raise, every token can be encoded and the destination of the
    vocabulary is usable), [main] does all the work up to quantization and
    then ends with [NotADirectoryError], raised by [rmtree]: the file is
    still there, and so is the [vocab.txt] written at the beginning of the
    run. *)
Theorem main_fails_on_file_at_package_path {Rng Hidden Scores Traced MLModel : Type}
    (env : Env Rng Hidden Scores Traced MLModel) (fs : filesystem) (c : string) :
  libraries_succeed env ->
  (forall tok, auto_tokenizer env MODEL_NAME = inr tok ->
               Forall (fun kv => encodable (fst kv) = true) (get_vocab tok)) ->
  is_ok (fs_mkdir_parents (OUTPUT_DIR env) fs) = true ->
  fs !! vocab_path env <> Some Dir ->
  fs !! mlpackage_path env = Some (File c) ->
  exists (tok : tokenizer) (pre : list event),
    auto_tokenizer env MODEL_NAME = inr tok /\
    (main env fs).2 = inl NotADirectoryError /\
    (main env fs).1.2 = pre ++ [EvQuantize "linear" int8; EvRmtree (mlpackage_path env)] /\
    (main env fs).1.1 !! mlpackage_path env = Some (File c) /\
    (main env fs).1.1 !! vocab_path env = Some (File (vocab_text (get_vocab tok))).
Proof.
  intros (Htok & Hmodel & Htrace & Hconv & Hquant) Henc Hmk Hnd Hfile.
  destruct (auto_tokenizer env MODEL_NAME) as [e|tok] eqn:Etok; [done|].
  destruct (auto_model env MODEL_NAME "eager") as [e|model] eqn:Emodel; [done|].
  destruct (export_vocabulary_ok env tok fs (Henc tok eq_refl) Hmk Hnd)
    as (fs1 & ev1 & Hexp & Hvoc).
  pose proof (export_vocabulary_keeps_package env tok fs []) as Hkeep.
  rewrite Hexp, app_nil_r, Hfile in Hkeep. cbn [fst] in Hkeep.
  pose proof (Htrace (traced_wrapper model) (example_inputs env)) as Ht.
  destruct (jit_trace env (traced_wrapper model) (example_inputs env))
    as [e|traced] eqn:Etr; [done|].
  pose proof (Hconv traced main_convert_args) as Hc.
  destruct (ct_convert env traced main_convert_args) as [e|mlmodel] eqn:Ecv; [done|].
  pose proof (Hquant mlmodel "linear" int8) as Hq.
  destruct (affine_quantize_weights env mlmodel "linear" int8)
    as [e|mlmodel_int8] eqn:Eq; [done|].
  exists tok, (load_events ++ ev1 ++ take 6 (stage_events env)).
  rewrite main_run, Etok, Emodel, Hexp, Etr, Ecv, Eq, save_model_run. cbn zeta.
  unfold fs_exists, fs_rmtree. rewrite stat_mlpackage_path, Hkeep. cbn [fst snd].
  split; [done|]. split; [done|]. split; [|done].
  by rewrite <- !app_assoc.
Qed.

Lemma main_fails_on_file_at_package_path_witness :
  exists (tok : tokenizer) (pre : list event),
    auto_tokenizer toy_env MODEL_NAME = inr tok /\
    (main toy_env blocked_fs).2 = inl NotADirectoryError /\
    (main toy_env blocked_fs).1.2 =
      pre ++ [EvQuantize "linear" int8; EvRmtree (mlpackage_path toy_env)] /\
    (main toy_env blocked_fs).1.1 !! mlpackage_path toy_env = Some (File "not a package") /\
    (main toy_env blocked_fs).1.1 !! vocab_path toy_env =
      Some (File (vocab_text (get_vocab tok))).
Proof.
  apply (main_fails_on_file_at_package_path toy_env blocked_fs "not a package").
  - repeat split.
  - intros tok [= <-]. repeat constructor.
  - vm_compute. reflexivity.
  - vm_compute. discriminate.
  - vm_compute. reflexivity.
Defined.

(** ** The wrapper handed to the tracer *)

(** X14.  Whatever the mode of the model it is given, the tracing stage
    calls the tracer on a wrapper that is in eval mode together with its
    embeddings, encoder and head, and whose position ids are 0, ..., 127 in
    shape [[1, 128]]; the stage ends as the tracer does and leaves the file
    system alone. *)
Theorem trace_model_uses_eval_wrapper {Rng Hidden Scores Traced MLModel : Type}
    (env : Env Rng Hidden Scores Traced MLModel)
    (model : hf_model Rng Hidden Scores) (fs : filesystem) :
  exists w : MaskedLMWrapper Rng Hidden Scores,
    w_training w = false /\
    training (embeddings (w_bert w)) = false /\
    training (encoder (w_bert w)) = false /\
    training (w_cls w) = false /\
    impl (embeddings (w_bert w)) = impl (embeddings (bert model)) /\
    impl (encoder (w_bert w)) = impl (encoder (bert model)) /\
    impl (w_cls w) = impl (cls model) /\
    position_ids w = Tensor [1; 128]%nat (map Z.of_nat (seq 0 128)) /\
    (trace_model env model fs).2 =
      jit_trace env w (dummy_ids env, dummy_mask, dummy_type_ids) /\
    (trace_model env model fs).1.1 = fs.
Proof.
  exists (wrapper_eval
            (Wrapper (bert model) (cls model)
                     (Tensor [1%nat; MAX_SEQ_LEN] (data (arange MAX_SEQ_LEN))) true)).
  repeat (split; [reflexivity|]).
  unfold trace_model, mbind, M_mbind, M_bind, emit, lift, call, mret, M_mret, M_ret.
  rewrite wrapper_init_eq.
  by destruct (jit_trace env _ _).
Qed.

(** ** The calls to the tracer and to the converter *)

(** X15.  In a run of [main] in which the tokenizer and the model are loaded
    and the vocabulary is exported, the tracer is called exactly once, on the
    wrapper in eval mode and on the example inputs: three tensors of shape
    [[1, MAX_SEQ_LEN]], token ids drawn from [[0, 1000)], a mask of ones and
    token type ids of zeros.  An exception of the tracer ends the run before
    the converter is called. *)
Theorem trace_called_on_dummy_inputs {Rng Hidden Scores Traced MLModel : Type}
    (env : Env Rng Hidden Scores Traced MLModel) (fs : filesystem)
    (tok : tokenizer) (model : hf_model Rng Hidden Scores) :
  auto_tokenizer env MODEL_NAME = inr tok ->
  auto_model env MODEL_NAME "eager" = inr model ->
  (export_vocabulary env tok fs).2 = inr tt ->
  trace_calls (main env fs).1.2 = [(dummy_ids env, dummy_mask, dummy_type_ids)] /\
  (forall e,
     jit_trace env (traced_wrapper model) (dummy_ids env, dummy_mask, dummy_type_ids) = inl e ->
     (main env fs).2 = inl e /\ convert_calls (main env fs).1.2 = []) /\
  shape (dummy_ids env) = [1%nat; MAX_SEQ_LEN] /\
  shape dummy_mask = [1%nat; MAX_SEQ_LEN] /\
  shape dummy_type_ids = [1%nat; MAX_SEQ_LEN] /\
  length (data (dummy_ids env)) = MAX_SEQ_LEN /\
  Forall (fun x => 0 <= x < 1000) (data (dummy_ids env)) /\
  data dummy_mask = replicate MAX_SEQ_LEN 1 /\
  data dummy_type_ids = replicate MAX_SEQ_LEN 0.
Proof.
  intros Htok Hmodel Hexp.
  pose proof (main_stage_calls env fs) as H.
  rewrite Htok, Hmodel, Hexp in H. destruct H as [Ht Hc].
  split; [exact Ht|]. split.
  { intros e He. fold (example_inputs env) in He. rewrite He in Hc. by destruct Hc. }
  split; [done|]. split; [done|]. split; [done|].
  split; [unfold dummy_ids, randint; cbn [data]; by rewrite length_map, length_seq|].
  split; [|done].
  unfold dummy_ids, randint. cbn [data]. apply Forall_fmap, Forall_true.
  intros i. unfold compose. change (1000 - 0) with 1000.
  pose proof (Z.mod_pos_bound (rand env i) 1000 ltac:(lia)). lia.
Qed.

Lemma trace_called_on_dummy_inputs_witness :
  trace_calls (main toy_env_bad_convert ∅).1.2 =
    [(dummy_ids toy_env_bad_convert, dummy_mask, dummy_type_ids)] /\
  Forall (fun x => 0 <= x < 1000) (data (dummy_ids toy_env_bad_convert)).
Proof.
  destruct (trace_called_on_dummy_inputs toy_env_bad_convert ∅ (Tokenizer toy_vocab) toy_model)
    as (Hcalls & _ & _ & _ & _ & _ & Hrange & _).
  - reflexivity.
  - reflexivity.
  - vm_compute. reflexivity.
  - split; [exact Hcalls|exact Hrange].
Defined.

(** X16.  The model stages are reached only through the stages before them:
    a run in which the tracer is called has loaded the tokenizer and the
    model and exported the whole vocabulary, and a run in which the converter
    is called has moreover got a graph from the tracer. *)
Theorem model_stages_follow_export {Rng Hidden Scores Traced MLModel : Type}
    (env : Env Rng Hidden Scores Traced MLModel) (fs : filesystem) :
  (trace_calls (main env fs).1.2 <> [] ->
   exists tok model,
     auto_tokenizer env MODEL_NAME = inr tok /\
     auto_model env MODEL_NAME "eager" = inr model /\
     (export_vocabulary env tok fs).2 = inr tt /\
     (main env fs).1.1 !! vocab_path env = Some (File (vocab_text (get_vocab tok)))) /\
  (convert_calls (main env fs).1.2 <> [] ->
   exists tok model traced,
     auto_tokenizer env MODEL_NAME = inr tok /\
     auto_model env MODEL_NAME "eager" = inr model /\
     (export_vocabulary env tok fs).2 = inr tt /\
     jit_trace env (traced_wrapper model) (example_inputs env) = inr traced).
Proof.
  pose proof (main_stage_calls env fs) as H.
  assert (existsb model_stage (main env fs).1.2 = true ->
          exists tok, auto_tokenizer env MODEL_NAME = inr tok /\
            (main env fs).1.1 !! vocab_path env = Some (File (vocab_text (get_vocab tok))))
    as Hkept.
  { intros Hst. rewrite main_run in Hst |- *.
    destruct (auto_tokenizer env MODEL_NAME) as [e|tok]; [done|].
    destruct (auto_model env MODEL_NAME "eager") as [e|model]; [done|].
    destruct (export_vocabulary env tok fs) as [[fs1 ev1] r1] eqn:Eexp.
    pose proof (export_events_calls env tok fs fs1 ev1 r1 Eexp) as Hev1.
    destruct r1 as [e|[]]; cbn [fst snd] in *.
    { by rewrite existsb_app, (existsb_false_of_Forall _ ev1 Hev1) in Hst. }
    destruct (export_vocabulary_done env tok fs fs1 ev1 tt Eexp) as [_ Hfile].
    exists tok. split; [done|].
    destruct (jit_trace env _ _) as [e|traced]; [done|].
    destruct (ct_convert env traced main_convert_args) as [e|mlmodel]; [done|].
    destruct (affine_quantize_weights env mlmodel "linear" int8) as [e|mlmodel_int8]; [done|].
    pose proof (save_model_keeps_vocab env mlmodel_int8 fs1) as Hkeep.
    destruct (save_model env mlmodel_int8 fs1) as [[fs2 ev2] r]. cbn [fst snd] in *.
    by rewrite Hkeep. }
  destruct (auto_tokenizer env MODEL_NAME) as [e|tok] eqn:Etok;
    [by destruct H as [-> ->]|].
  destruct (auto_model env MODEL_NAME "eager") as [e|model] eqn:Emodel;
    [by destruct H as [-> ->]|].
  destruct ((export_vocabulary env tok fs).2) as [e|[]] eqn:Eexp;
    [by destruct H as [-> ->]|].
  destruct H as [Ht Hc]. split.
  - intros _. exists tok, model. split; [done|]. split; [done|]. split; [done|].
    destruct Hkept as (tok' & [= <-] & Hfile); [|done].
    clear -Ht. unfold trace_calls in Ht.
    induction ((main env fs).1.2) as [|ev evs IH]; [done|].
    destruct ev; cbn in *; first [done | by apply IH].
  - intros Hne. destruct (jit_trace env _ _) as [e|traced] eqn:Etr.
    + by destruct Hc as [Hc _].
    + by exists tok, model, traced.
Qed.

(** ** A token that cannot be encoded *)

(** X17.  When the tokens are taken in the order of their ids, the first one
    that cannot be encoded as UTF-8 stops the export with
    [UnicodeEncodeError]: on a destination that can be created, with
    [vocab.txt] not a directory, the file is closed and holds the lines of
    the tokens before that one and nothing else, and no message is
    printed. *)
Theorem export_stops_at_unencodable_token {Rng Hidden Scores Traced MLModel : Type}
    (env : Env Rng Hidden Scores Traced MLModel)
    (tok : tokenizer) (fs : filesystem)
    (before after : list (string * Z)) (kv : string * Z) :
  sorted snd (get_vocab tok) = before ++ kv :: after ->
  Forall (fun kv => encodable (fst kv) = true) before ->
  encodable (fst kv) = false ->
  is_ok (fs_mkdir_parents (OUTPUT_DIR env) fs) = true ->
  fs !! vocab_path env <> Some Dir ->
  (export_vocabulary env tok fs).2 = inl UnicodeEncodeError /\
  (export_vocabulary env tok fs).1.1 !! vocab_path env =
    Some (File (foldr String.append EmptyString
                  (map (fun kv => fst kv +:+ newline) before))) /\
  last (export_vocabulary env tok fs).1.2 = Some (EvClose (vocab_path env)) /\
  printed (export_vocabulary env tok fs).1.2 = [].
Proof.
  intros Hsplit Hbefore Hkv Hmk Hnd.
  rewrite export_vocabulary_run.
  destruct (fs_mkdir_parents (OUTPUT_DIR env) fs) as [e|fs0] eqn:Emk; [done|].
  pose proof (fs_open_w_vocab env fs fs0 Emk Hnd) as Hopen.
  destruct (fs_open_w (vocab_path env) fs0) as [e|fs1] eqn:Eopen; [done|].
  apply fs_open_w_result in Eopen as ->.
  rewrite Hsplit.
  rewrite (write_tokens_stop (vocab_path env) before kv after _ EmptyString);
    [|apply lookup_insert_eq|done|done].
  cbn [fst snd]. rewrite insert_insert_eq, lookup_insert_eq, append_nil_l.
  split; [done|]. split; [done|]. split.
  - rewrite !app_comm_cons. apply last_snoc.
  - change (printed (?a :: ?b :: ?l)) with (printed l).
    by rewrite !printed_app, printed_writes.
Qed.

Lemma export_stops_at_unencodable_token_witness :
  (export_vocabulary toy_env
     (Tokenizer [(lone_surrogate, 1); ("y", 2); ("x", 0)]) stale_fs).2 =
    inl UnicodeEncodeError /\
  (export_vocabulary toy_env
     (Tokenizer [(lone_surrogate, 1); ("y", 2); ("x", 0)]) stale_fs).1.1
    !! vocab_path toy_env =
    Some (File (foldr String.append EmptyString
                  (map (fun kv => fst kv +:+ newline) [("x", 0)]))) /\
  last (export_vocabulary toy_env
          (Tokenizer [(lone_surrogate, 1); ("y", 2); ("x", 0)]) stale_fs).1.2 =
    Some (EvClose (vocab_path toy_env)) /\
  printed (export_vocabulary toy_env
             (Tokenizer [(lone_surrogate, 1); ("y", 2); ("x", 0)]) stale_fs).1.2 = [].
Proof.
  apply (export_stops_at_unencodable_token toy_env
           (Tokenizer [(lone_surrogate, 1); ("y", 2); ("x", 0)]) stale_fs
           [("x", 0)] [("y", 2)] (lone_surrogate, 1)).
  - reflexivity.
  - repeat constructor.
  - reflexivity.
  - vm_compute. reflexivity.
  - vm_compute. discriminate.
Defined.
